(** * lunr.py: the token pipeline and the multi-language bundler

    A shallow embedding of [lunr/pipeline.py] and [lunr/languages/__init__.py].
    Python objects that the code mutates (the class-level registry, the
    [label] attribute of function objects, the logger, a pipeline's
    [_stack]) are threaded as explicit state through a state-and-exception
    monad; a raised exception keeps the state reached so far, as in Python. *)

From stdpp Require Import gmap strings list sorting.
From Stdlib Require Import NArith Ascii.
From Stdlib Require String.

Local Open Scope N_scope.

(** ** Python values *)

Module Py.

(** A Python [str] is a sequence of Unicode code points. *)
Abbreviation str := (list N).

(** An ASCII literal of the source, as a [str]. *)
Definition py (s : string) : str :=
  N_of_ascii <$> String.list_ascii_of_string s.

(** Decoding of the UTF-8 bytes of a non-ASCII source literal. *)
Fixpoint utf8_decode (bytes : list N) : str :=
  match bytes with
  | [] => []
  | b0 :: rest =>
    if b0 <? 128 then b0 :: utf8_decode rest
    else match rest with
    | [] => [b0]
    | b1 :: rest1 =>
      if b0 <? 224 then
        ((b0 - 192) * 64 + (b1 - 128)) :: utf8_decode rest1
      else match rest1 with
      | [] => [b0; b1]
      | b2 :: rest2 =>
        if b0 <? 240 then
          ((b0 - 224) * 4096 + (b1 - 128) * 64 + (b2 - 128))
            :: utf8_decode rest2
        else match rest2 with
        | [] => [b0; b1; b2]
        | b3 :: rest3 =>
          ((b0 - 240) * 262144 + (b1 - 128) * 4096 + (b2 - 128) * 64
             + (b3 - 128)) :: utf8_decode rest3
        end
      end
    end
  end.

Definition utf8 (s : string) : str := utf8_decode (py s).

(** [sep.join(parts)] *)
Fixpoint join (sep : str) (parts : list str) : str :=
  match parts with
  | [] => []
  | [p] => p
  | p :: rest => p ++ sep ++ join sep rest
  end.

(** [s.split(sep)] for a separator of one character: consecutive
    separators delimit empty strings, as in Python. *)
Fixpoint split_aux (sep : N) (s : str) (word : str) : list str :=
  match s with
  | [] => [reverse word]
  | c :: rest =>
    if c =? sep then reverse word :: split_aux sep rest []
    else split_aux sep rest (c :: word)
  end.

Definition split (sep : N) (s : str) : list str := split_aux sep s [].

(** [template.format(arg)] for a template with at most one [{}] field,
    which is all the source has. A template without a field ignores the
    argument. *)
Fixpoint format (template arg : str) : str :=
  match template with
  | [] => []
  | c :: rest =>
    match rest with
    | d :: rest' =>
      if (c =? 123) && (d =? 125) then arg ++ rest'
      else c :: format rest arg
    | [] => [c]
    end
  end.

(** [needle in haystack] on strings. *)
Fixpoint is_prefix (p s : str) : bool :=
  match p, s with
  | [], _ => true
  | _ :: _, [] => false
  | a :: p', b :: s' => (a =? b) && is_prefix p' s'
  end.

Fixpoint contains (needle haystack : str) : bool :=
  is_prefix needle haystack ||
  match haystack with
  | [] => false
  | _ :: rest => contains needle rest
  end.

(** The order of [str] under [<=]: lexicographic on code points. *)
Fixpoint str_leb (s t : str) : bool :=
  match s, t with
  | [], _ => true
  | _ :: _, [] => false
  | a :: s', b :: t' =>
    if a <? b then true else if a =? b then str_leb s' t' else false
  end.

Definition str_le (s t : str) : Prop := str_leb s t = true.

#[global] Instance str_le_dec s t : Decision (str_le s t).
Proof. unfold str_le. apply _. Defined.

(** The strict order [<]. *)
Definition str_lt (s t : str) : Prop := str_le s t ∧ s ≠ t.

(** [sorted(xs)] *)
Definition sorted (xs : list str) : list str := merge_sort str_le xs.

(** The exceptions the code raises or lets escape. *)
Inductive exn :=
  | Exception (msg : str)
  | AttributeError (msg : str)
  | KeyError (key : str)
  | ValueError
  | NameError (msg : str)
  | UnboundLocalError (msg : str)
  | ExternalError (code : nat).

(** A call either returns a value or raises. *)
Inductive outcome (A : Type) :=
  | Return (a : A)
  | Raise (e : exn).
Arguments Return {A} a.
Arguments Raise {A} e.

(** Computations over a mutable state [S]. The state survives a raise. *)
Definition M (S A : Type) : Type := S → outcome A * S.

#[global] Instance M_ret {S} : MRet (M S) := λ A a s, (Return a, s).

#[global] Instance M_bind {S} : MBind (M S) := λ A B f m s,
  match m s with
  | (Return a, s') => f a s'
  | (Raise e, s') => (Raise e, s')
  end.

Definition raise {S A} (e : exn) : M S A := λ s, (Raise e, s).

(** [try: body except <handled>: handler] *)
Definition try_except {S A} (body : M S A) (handler : exn → option (M S A))
  : M S A := λ s,
  match body s with
  | (Return a, s') => (Return a, s')
  | (Raise e, s') =>
    match handler e with
    | Some h => h s'
    | None => (Raise e, s')
    end
  end.

(** A computation on the first component of a pair of states. *)
Definition on_fst {S T A} (m : M S A) : M (S * T) A := λ '(s, t),
  let '(r, s') := m s in (r, (s', t)).

End Py.

Import Py.

(** ** lunr/pipeline.py *)

Module Pipeline.

(** A callable object, as it can stand in a pipeline. [Function] is a
    function object and [Partial] a [functools.partial] instance, the
    kind that [register_languages] allocates; [Object key addr] is the
    instance at [addr] of a class that defines [__call__] and an [__eq__]
    that compares [key]. Equality of two values of [fn] is being the same
    object. All of them take attributes; a bound method or a builtin,
    which do not, is not a value of [fn]. *)
Inductive fn :=
  | Function (id : nat)
  | Partial (addr : nat)
  | Object (key : nat) (addr : nat).

#[global] Instance fn_eq_dec : EqDecision fn.
Proof. solve_decision. Defined.

#[global] Instance fn_countable : Countable fn.
Proof.
  refine (inj_countable'
    (λ f, match f with
          | Function n => inl n
          | Partial n => inr (inl n)
          | Object k a => inr (inr (k, a))
          end)
    (λ x, match x with
          | inl n => Function n
          | inr (inl n) => Partial n
          | inr (inr (k, a)) => Object k a
          end) _).
  by intros [].
Defined.

(** [x == y]. Function objects and [partial] objects do not define
    [__eq__], so they are equal only to themselves; two [Object]s are
    equal when their keys are, also when they are different objects. *)
Definition py_eq (x y : fn) : bool :=
  match x, y with
  | Function a, Function b => bool_decide (a = b)
  | Partial a, Partial b => bool_decide (a = b)
  | Object k _, Object k' _ => bool_decide (k = k')
  | _, _ => false
  end.

(** No element of [l] is equal to [x]: what makes [l.index(x)] and
    [l.remove(x)] raise [ValueError]. *)
Definition none_equal (x : fn) (l : list fn) : Prop :=
  Forall (λ y, py_eq y x = false) l.

(** An [nltk] stemmer object; the library that makes them is not part of
    the code, so one is only a handle. *)
Inductive Stemmer := StemmerObject (id : nat).

(** The process-wide state the modules touch. *)
Record World := {
  (** [Pipeline.registered_functions], a class attribute *)
  registered_functions : gmap str fn;
  (** the [label] attribute of function objects that have one *)
  fn_label : gmap fn str;
  (** the records passed to [log.warning], oldest first *)
  log : list str;
  (** the stemmer bound in each [functools.partial] object *)
  partials : list Stemmer;
}.

(** [class Pipeline]: the instance attribute [_stack]. *)
Record Pipeline := { _stack : list fn }.

(** State of a method call: the world and [self]. *)
Abbreviation Self := (World * Pipeline)%type.

Definition log_warning (msg : str) : M World unit := λ w,
  (Return (), {| registered_functions := registered_functions w;
                 fn_label := fn_label w;
                 log := log w ++ [msg];
                 partials := partials w |}).

(** [Pipeline()] *)
Definition __init__ : Pipeline := {| _stack := [] |}.

Definition __len__ (self : Pipeline) : nat := length (_stack self).

(** [label in cls.registered_functions] *)
Definition is_registered (label : str) : M World bool := λ w,
  (Return (bool_decide (is_Some (registered_functions w !! label))), w).

(** [fn.label = label; cls.registered_functions[fn.label] = fn] *)
Definition bind_label (f : fn) (label : str) : M World unit := λ w,
  (Return (),
   {| registered_functions := <[label := f]> (registered_functions w);
      fn_label := <[f := label]> (fn_label w);
      log := log w;
      partials := partials w |}).

Definition register_function (f : fn) (label : str) : M World unit :=
  known ← is_registered label;
  (if known : bool
   then log_warning (py "Overwriting existing registered function " ++ label)
   else mret ());;
  bind_label f label.

(** [cls.registered_functions[label]] *)
Definition registry_getitem (label : str) : M World fn := λ w,
  match registered_functions w !! label with
  | Some f => (Return f, w)
  | None => (Raise (KeyError label), w)
  end.

(** [fn.label]: a function object without the attribute raises. *)
Definition getattr_label (f : fn) : M World str := λ w,
  match fn_label w !! f with
  | Some l => (Return l, w)
  | None =>
    (Raise (AttributeError (py "'function' object has no attribute 'label'")),
     w)
  end.

Definition is_AttributeError {S A} (h : M S A) (e : exn) : option (M S A) :=
  match e with AttributeError _ => Some h | _ => None end.

Definition is_KeyError {S A} (h : M S A) (e : exn) : option (M S A) :=
  match e with KeyError _ => Some h | _ => None end.

Definition is_ValueError {S A} (h : M S A) (e : exn) : option (M S A) :=
  match e with ValueError => Some h | _ => None end.

(** The two adjacent literals of the warning, which Python concatenates. *)
Definition not_registered_warning : str :=
  py "Function is not registered with pipeline."
    ++ py "This may cause problems when serialising the index.".

(** The value is [True] or [False] when the function has a label, and
    [None] (after the warning) when reading the label raised. *)
Definition warn_if_function_not_registered (f : fn) : M World (option bool) :=
  try_except
    (l ← getattr_label f; known ← is_registered l; mret (Some known))
    (is_AttributeError
       (log_warning not_registered_warning;; mret None)).

(** [self._stack.push(fn)]: Python's [list] has [append], [insert],
    [index] and [remove], but no [push]; looking the attribute up raises
    before anything is called. *)
Definition no_push : exn :=
  AttributeError (py "'list' object has no attribute 'push'").

Definition _stack_push (f : fn) : M Self unit := raise no_push.

(** [self._stack.index(x)]: the position of the first element [y] with
    [y == x]. *)
Fixpoint list_index (x : fn) (l : list fn) : option nat :=
  match l with
  | [] => None
  | y :: l' => if py_eq y x then Some O else S <$> list_index x l'
  end.

Definition _stack_index (x : fn) : M Self nat := λ '(w, self),
  match list_index x (_stack self) with
  | Some i => (Return i, (w, self))
  | None => (Raise ValueError, (w, self))
  end.

(** [self._stack.insert(i, x)] for [i >= 0]; past the end it appends. *)
Definition _stack_insert (i : nat) (x : fn) : M Self unit := λ '(w, self),
  (Return (),
   (w, {| _stack := take i (_stack self) ++ x :: drop i (_stack self) |})).

(** [l.remove(x)]: deletes the first element [y] with [y == x]. *)
Fixpoint list_remove (x : fn) (l : list fn) : option (list fn) :=
  match l with
  | [] => None
  | y :: l' =>
    if py_eq y x then Some l' else (y ::.) <$> list_remove x l'
  end.

Definition _stack_remove (x : fn) : M Self unit := λ '(w, self),
  match list_remove x (_stack self) with
  | Some l => (Return (), (w, {| _stack := l |}))
  | None => (Raise ValueError, (w, self))
  end.

Fixpoint add (args : list fn) : M Self unit :=
  match args with
  | [] => mret ()
  | f :: args' =>
    on_fst (warn_if_function_not_registered f);;
    _stack_push f;;
    add args'
  end.

Fixpoint load_loop (serialised : list str) : M Self unit :=
  match serialised with
  | [] => mret ()
  | fn_name :: rest =>
    f ← try_except
          (on_fst (registry_getitem fn_name))
          (is_KeyError
             (raise (Exception
                (format (py "Cannot load unregistered function ") fn_name))));
    add [f];;
    load_loop rest
  end.

(** The exception [load] raises, with the message as [format] leaves it. *)
Definition cannot_load : exn :=
  Exception (py "Cannot load unregistered function ").

(** A classmethod: [pipeline] is a local, gone when the call raises. *)
Definition load (serialised : list str) : M World Pipeline := λ w,
  match load_loop serialised (w, __init__) with
  | (Return _, (w', pipeline)) => (Return pipeline, w')
  | (Raise e, (w', _)) => (Raise e, w')
  end.

Definition cannot_find : exn := Exception (py "Cannot find existing_fn").

Definition after (existing_fn new_fn : fn) : M Self unit :=
  on_fst (warn_if_function_not_registered new_fn);;
  try_except
    (index ← _stack_index existing_fn;
     _stack_insert (index + 1)%nat new_fn)
    (is_ValueError (raise cannot_find)).

Definition before (existing_fn new_fn : fn) : M Self unit :=
  on_fst (warn_if_function_not_registered new_fn);;
  try_except
    (index ← _stack_index existing_fn;
     _stack_insert index new_fn)
    (is_ValueError (raise cannot_find)).

Definition remove (f : fn) : M Self unit :=
  try_except (_stack_remove f) (is_ValueError (mret ())).

Section Run.
Context {Token : Type}.
(** [fn(token, i, tokens)]: what calling a function object gives. [run]
    starts from [result = ''] and extends it with [+=], so a stage
    returns a [str]. *)
Variable call : fn → Token → nat → list Token → str.

(** The inner loop of [run] from index [i] on, [rest] being the tokens
    not yet visited and [result] the string built so far. *)
Fixpoint run_tokens (f : fn) (tokens : list Token) (i : nat)
    (rest : list Token) (result : str) : str :=
  match rest with
  | [] => result
  | token :: rest' =>
    let result := result ++ call f token i tokens in
    if bool_decide (result = []) then result
    else run_tokens f tokens (S i) rest' result
  end.

(** The outer loop: [results.append(result)] once per stage. *)
Fixpoint run_stack (stack : list fn) (tokens : list Token)
    (results : list str) : list str :=
  match stack with
  | [] => results
  | f :: stack' =>
    let result := run_tokens f tokens O tokens [] in
    run_stack stack' tokens (results ++ [result])
  end.

Definition run (self : Pipeline) (tokens : list Token) : list str :=
  run_stack (_stack self) tokens [].

(** [Token(string)] is made elsewhere; [str] of a [str] is itself. *)
Definition run_string (Token_new : str → Token) (self : Pipeline)
    (string : str) : list str :=
  let token := Token_new string in
  (λ tkn, tkn) <$> run self [token].
End Run.

Definition reset : M Self unit := λ '(w, _), (Return (), (w, __init__)).

(** [[fn.label for fn in stack]] *)
Fixpoint labels_of (stack : list fn) : M Self (list str) :=
  match stack with
  | [] => mret []
  | f :: stack' =>
    l ← on_fst (getattr_label f); ls ← labels_of stack'; mret (l :: ls)
  end.

Definition to_json : M Self (list str) := λ '(w, self),
  labels_of (_stack self) (w, self).

End Pipeline.

(** ** The execution semantics in the specification's words *)

Module TokenChain.
Import Pipeline.

(** Modelled from the spec: [lunr.token.Token] is not among the sources;
    the specification describes it as an opaque carrier of a string plus
    positional metadata. *)
Record Token (Metadata : Type) := {
  token_str : str;
  token_metadata : Metadata;
}.
Arguments token_str {Metadata} _.
Arguments token_metadata {Metadata} _.

Section Chain.
Context {Metadata : Type}.
Variable call : fn → Token Metadata → nat → list (Token Metadata) → str.

(** Steps 2a to 2d: every token of [current] goes through the stage with
    its index and [current]; an empty output drops the token, any other
    becomes the text of a new token that keeps the metadata. *)
Definition stage (f : fn) (current : list (Token Metadata))
  : list (Token Metadata) :=
  omap id
    (imap (λ i t,
       let out := call f t i current in
       if bool_decide (out = []) then None
       else Some {| token_str := out; token_metadata := token_metadata t |})
     current).

(** Steps 1, 2e and 3: each stage's output is the next stage's input. *)
Definition run_chain (stack : list fn) (tokens : list (Token Metadata))
  : list (Token Metadata) :=
  foldl (λ current f, stage f current) tokens stack.
End Chain.

End TokenChain.

(** ** lunr/languages/__init__.py *)

Module Languages.
Import Pipeline.

(** ISO-639-1 codes to [SnowballStemmer.languages]. *)
Definition SUPPORTED_LANGUAGES : gmap str str :=
  list_to_map
    [ (py "fa", py "arabic");
      (py "ar", py "arabic");
      (py "da", py "danish");
      (py "nl", py "dutch");
      (py "en", py "english");
      (py "fi", py "finnish");
      (py "fr", py "french");
      (py "de", py "german");
      (py "hu", py "hungarian");
      (py "it", py "italian");
      (py "no", py "norwegian");
      (py "pt", py "portuguese");
      (py "ro", py "romanian");
      (py "ru", py "russian");
      (py "es", py "spanish");
      (py "sv", py "swedish") ].

Definition persian_stopwords_literal : str :=
  utf8 "و در به از كه مي اين است را با هاي براي آن يك شود شده خود ها كرد شد اي تا كند بر بود گفت نيز وي هم كنند دارد ما كرده يا اما بايد دو اند هر خواهد او مورد آنها باشد ديگر مردم نمي بين پيش پس اگر همه صورت يكي هستند بي من دهد هزار نيست استفاده داد داشته راه داشت چه همچنين كردند داده بوده دارند همين ميليون سوي شوند بيشتر بسيار روي گرفته هايي تواند اول نام هيچ چند جديد بيش شدن كردن كنيم نشان حتي اينكه ولی توسط چنين برخي نه ديروز دوم درباره بعد مختلف گيرد شما گفته آنان بار طور گرفت دهند گذاري بسياري طي بودند ميليارد بدون تمام كل تر  براساس شدند ترين امروز باشند ندارد چون قابل گويد ديگري همان خواهند قبل آمده اكنون تحت طريق گيري جاي هنوز چرا البته كنيد سازي سوم كنم بلكه زير توانند ضمن فقط بودن حق آيد وقتي اش يابد نخستين مقابل خدمات امسال تاكنون مانند تازه آورد فكر آنچه نخست نشده شايد چهار جريان پنج ساخته زيرا نزديك برداري كسي ريزي رفت گردد مثل آمد ام بهترين دانست كمتر دادن تمامي جلوگيري بيشتري ايم ناشي چيزي آنكه بالا بنابراين ايشان بعضي دادند داشتند برخوردار نخواهد هنگام نبايد غير نبود ديده وگو داريم چگونه بندي خواست فوق ده نوعي هستيم ديگران همچنان سراسر ندارند گروهي سعي روزهاي آنجا يكديگر كردم بيست بروز سپس رفته آورده نمايد باشيم گويند زياد خويش همواره گذاشته شش  نداشته شناسي خواهيم آباد داشتن نظير همچون باره نكرده شان سابق هفت دانند جايي بی جز زیرِ رویِ سریِ تویِ جلویِ پیشِ عقبِ بالایِ خارجِ وسطِ بیرونِ سویِ کنارِ پاعینِ نزدِ نزدیکِ دنبالِ حدودِ برابرِ طبقِ مانندِ ضدِّ هنگامِ برایِ مثلِ بارة اثرِ تولِ علّتِ سمتِ عنوانِ قصدِ روب جدا کی که چیست هست کجا کجاست کَی چطور کدام آیا مگر چندین یک چیزی دیگر کسی بعری هیچ چیز جا کس هرگز یا تنها بلکه خیاه بله بلی آره آری مرسی البتّه لطفاً ّه انکه وقتیکه همین پیش مدّتی هنگامی مان تان".

(** [{c for c in '...'.split(" ")}] *)
Definition persian_stopwords : gset str :=
  list_to_set (split 32 persian_stopwords_literal).

(** The [nltk] package, an optional dependency outside the code. *)
Record nltk_module := {
  (** [nltk.download(resource, quiet=True)] *)
  download : str → outcome bool;
  (** [nltk.corpus.stopwords.words(language)] *)
  corpus_stopwords_words : str → outcome (list str);
  (** [nltk.stem.snowball.SnowballStemmer(language)] *)
  SnowballStemmer : str → outcome Stemmer;
}.

(** [stopwords] is bound to a list from [nltk] or to the set
    [persian_stopwords]. *)
Inductive words :=
  | WordList (l : list str)
  | WordSet (s : gset str).

(** [class Builder] of [lunr.builder] is not among the sources; the
    code reads its attributes [pipeline] and [search_pipeline]. *)
Record Builder := {
  pipeline : Pipeline;
  search_pipeline : Pipeline;
}.

(** What the module imports from outside the sources. *)
Record Imports := {
  (** [None] when [import nltk] raised [ImportError] *)
  nltk : option nltk_module;
  (** [lunr.stemmer.stemmer] *)
  stemmer : fn;
  (** [lunr.stop_word_filter.stop_word_filter] *)
  stop_word_filter : fn;
  (** [lunr.languages.trimmer.generate_trimmer(word_characters)] *)
  generate_trimmer : str → M World fn;
  (** [generate_stop_word_filter(stopwords, language=language)] *)
  generate_stop_word_filter : words → str → M World fn;
  (** [Builder()] *)
  Builder_new : M World Builder;
}.

Section Bundler.
Variable lib : Imports.

Definition LANGUAGE_SUPPORT : bool := bool_decide (is_Some (nltk lib)).

(** Reading the global name [nltk]. *)
Definition global_nltk : M World nltk_module := λ w,
  match nltk lib with
  | Some n => (Return n, w)
  | None => (Raise (NameError (py "name 'nltk' is not defined")), w)
  end.

(** A call into a library that does not touch the world. *)
Definition external {A} (r : outcome A) : M World A := λ w, (r, w).

(** [SUPPORTED_LANGUAGES[language]] *)
Definition supported_getitem (language : str) : M World str := λ w,
  match SUPPORTED_LANGUAGES !! language with
  | Some v => (Return v, w)
  | None => (Raise (KeyError language), w)
  end.

(** The characters of one word, each a [str] of length one. *)
Definition characters (word : str) : gset str :=
  list_to_set ((λ c, [c]) <$> word).

(** [{c for word in stopwords for c in word}] *)
Definition word_characters_of (stopwords : words) : gset str :=
  match stopwords with
  | WordList l => ⋃ (characters <$> l)
  | WordSet s => ⋃ (characters <$> elements s)
  end.

Definition _get_stopwords_and_word_characters (language : str)
  : M World (words * gset str) :=
  n ← global_nltk;
  external (download n (py "stopwords"));;
  verbose_language ← supported_getitem language;
  stopwords ← external (corpus_stopwords_words n verbose_language);
  let stopwords :=
    if decide (language = py "fa") then WordSet persian_stopwords
    else WordList stopwords in
  let word_characters := word_characters_of stopwords in
  mret (stopwords, word_characters).

(** The set one turn of the loop in [get_nltk_builder] merges into
    [all_word_characters]: the marker [\w] for ["en"], otherwise the
    characters computed above, which do not depend on the world (the
    empty set stands for a turn that raises). *)
Definition language_word_characters (language : str) : gset str :=
  if decide (language = py "en") then {[ py "\w" ]}
  else
    match _get_stopwords_and_word_characters language
            {| registered_functions := ∅; fn_label := ∅; log := [];
               partials := [] |} with
    | (Return (_, word_characters), _) => word_characters
    | (Raise _, _) => ∅
    end.

(** The locals [all_stemmers], [all_stopwords_filters] and
    [all_word_characters]. *)
Record Collected := {
  all_stemmers : list fn;
  all_stopwords_filters : list fn;
  all_word_characters : gset str;
}.

(** Their values before the loop. *)
Definition nothing_collected : Collected :=
  {| all_stemmers := []; all_stopwords_filters := [];
     all_word_characters := ∅ |}.

(** One turn of [for language in languages]. *)
Definition collect_language (language : str) (c : Collected)
  : M World Collected :=
  if decide (language = py "en") then
    mret {| all_stemmers := all_stemmers c ++ [stemmer lib];
            all_stopwords_filters :=
              all_stopwords_filters c ++ [stop_word_filter lib];
            all_word_characters := all_word_characters c ∪ {[ py "\w" ]} |}
  else
    '(stopwords, word_characters) ←
      _get_stopwords_and_word_characters language;
    language_stemmer ← registry_getitem (format (py "stemmer-{}") language);
    filter ← generate_stop_word_filter lib stopwords language;
    mret {| all_stemmers := all_stemmers c ++ [language_stemmer];
            all_stopwords_filters := all_stopwords_filters c ++ [filter];
            all_word_characters := all_word_characters c ∪ word_characters |}.

Fixpoint collect (languages : list str) (c : Collected) : M World Collected :=
  match languages with
  | [] => mret c
  | language :: rest => c' ← collect_language language c; collect rest c'
  end.

(** The frame of [get_nltk_builder]: the world and the local [builder],
    unbound until [Builder()] has returned. *)
Abbreviation Frame := (World * option Builder)%type.

Definition assign_builder (b : Builder) : M Frame unit := λ '(w, _),
  (Return (), (w, Some b)).

Definition unbound_builder : exn :=
  UnboundLocalError (py "cannot access local variable 'builder'").

Definition read_builder : M Frame Builder := λ '(w, builder),
  match builder with
  | Some b => (Return b, (w, builder))
  | None => (Raise unbound_builder, (w, builder))
  end.

(** A method call on [builder.pipeline]. *)
Definition on_pipeline {A} (m : M Self A) : M Frame A := λ '(w, builder),
  match builder with
  | Some b =>
    let '(r, (w', p)) := m (w, pipeline b) in
    (r, (w', Some {| pipeline := p; search_pipeline := search_pipeline b |}))
  | None => (Raise unbound_builder, (w, builder))
  end.

(** A method call on [builder.search_pipeline]. *)
Definition on_search_pipeline {A} (m : M Self A) : M Frame A :=
  λ '(w, builder),
  match builder with
  | Some b =>
    let '(r, (w', p)) := m (w, search_pipeline b) in
    (r, (w', Some {| pipeline := pipeline b; search_pipeline := p |}))
  | None => (Raise unbound_builder, (w, builder))
  end.

(** [for fn in fns: <slot>.add(fn)] *)
Fixpoint add_each (slot : M Self unit → M Frame unit) (fns : list fn)
  : M Frame unit :=
  match fns with
  | [] => mret ()
  | f :: rest => slot (add [f]);; add_each slot rest
  end.

(** ["lunr-multi-trimmer-{}".format("-".join(languages))] *)
Definition multi_trimmer_label (languages : list str) : str :=
  format (py "lunr-multi-trimmer-{}") (join (py "-") languages).

(** ["".join(sorted(all_word_characters))] *)
Definition trimmer_alphabet (all_word_characters : gset str) : str :=
  join [] (sorted (elements all_word_characters)).

Definition get_nltk_builder_body (languages : list str) : M Frame Builder :=
  c ← on_fst (collect languages nothing_collected);
  b ← on_fst (Builder_new lib);
  assign_builder b;;
  multi_trimmer ←
    on_fst (generate_trimmer lib (trimmer_alphabet (all_word_characters c)));
  on_fst (register_function multi_trimmer (multi_trimmer_label languages));;
  on_pipeline reset;;
  add_each on_pipeline
    ([multi_trimmer] ++ all_stopwords_filters c ++ all_stemmers c);;
  add_each on_search_pipeline (all_stemmers c);;
  read_builder.

(** A call starts with [builder] unbound; the result shows the world and
    the local at the point where the call returned or raised. *)
Definition get_nltk_builder (languages : list str) (w : World)
  : outcome Builder * Frame :=
  get_nltk_builder_body languages (w, None).

(** Modelled from the spec: [lunr.languages.stemmer.get_language_stemmer]
    is not among the sources. The specification has the two-letter codes
    mapped to the full language names that the stemmer capability
    understands: the stemmer of a code is [nltk]'s for the mapped name. *)
Definition get_language_stemmer (language : str) : M World Stemmer :=
  n ← global_nltk;
  verbose_language ← supported_getitem language;
  external (SnowballStemmer n verbose_language).

(** [partial(nltk_stemmer, stemmer)]: a new callable object. *)
Definition partial_nltk_stemmer (s : Stemmer) : M World fn := λ w,
  (Return (Partial (length (partials w))),
   {| registered_functions := registered_functions w;
      fn_label := fn_label w;
      log := log w;
      partials := partials w ++ [s] |}).

(** [for language in set(SUPPORTED_LANGUAGES) - {"en"}], in the order
    [order] in which the set is iterated. *)
Fixpoint register_languages_in (order : list str) : M World unit :=
  match order with
  | [] => mret ()
  | language :: rest =>
    s ← get_language_stemmer language;
    language_stemmer ← partial_nltk_stemmer s;
    register_function language_stemmer (format (py "stemmer-{}") language);;
    register_languages_in rest
  end.

(** The registry binds ["stemmer-fa"] to a [partial] object over the
    stemmer that [nltk] makes for ["arabic"]. *)
Definition fa_is_arabic (n : nltk_module) (w : World) : Prop :=
  ∃ a s,
    registered_functions w !! py "stemmer-fa" = Some (Partial a)
    ∧ partials w !! a = Some s
    ∧ SnowballStemmer n (py "arabic") = Return s.

(** [set(SUPPORTED_LANGUAGES) - {"en"}] *)
Definition registered_codes : gset str :=
  dom SUPPORTED_LANGUAGES ∖ {[ py "en" ]}.

(** [iteration] is the order in which the interpreter iterates over a
    set: some enumeration of its elements. *)
Definition register_languages (iteration : gset str → list str)
  : M World unit :=
  register_languages_in (iteration registered_codes).

(** The statements at the end of the module, run when it is imported. *)
Definition import_module (iteration : gset str → list str) : M World unit :=
  if LANGUAGE_SUPPORT then register_languages iteration else mret ().

End Bundler.

Section Collecting.
Variable lib : Imports.

(** Making a stop-word filter leaves the stemmers' registry entries. *)
Definition keeps_stemmers : Prop :=
  ∀ stopwords language w code,
    registered_functions (generate_stop_word_filter lib stopwords language w).2
      !! (py "stemmer-" ++ code)
    = registered_functions w !! (py "stemmer-" ++ code).

(** The stemmer that a turn of the loop started in world [w] takes. *)
Definition stemmer_for (w : World) (language : str) (s : fn) : Prop :=
  if decide (language = py "en") then s = stemmer lib
  else registered_functions w !! (py "stemmer-" ++ language) = Some s.

(** The stop-word filter that a turn of the loop takes for ["en"]. *)
Definition filter_for (language : str) (g : fn) : Prop :=
  language = py "en" → g = stop_word_filter lib.

End Collecting.

(** The registry binds [key] to a [partial] object that exists and
    carries [key] as its label. *)
Definition bound_to_a_partial (key : str) (w : World) : Prop :=
  ∃ a,
    registered_functions w !! key = Some (Partial a)
    ∧ fn_label w !! Partial a = Some key
    ∧ (a < length (partials w))%nat.

(** The code points that occur in the words of [persian_stopwords], in
    increasing order. *)
Definition persian_letters : list N :=
  [1570; 1575; 1576; 1577; 1578; 1579; 1580; 1581; 1582; 1583; 1584; 1585;
   1586; 1587; 1588; 1589; 1590; 1591; 1592; 1593; 1594; 1601; 1602; 1603;
   1604; 1605; 1606; 1607; 1608; 1610; 1611; 1614; 1616; 1617; 1662; 1670;
   1705; 1711; 1740].

(** [word in stopwords], for either kind of collection. *)
Definition has_word (stopwords : words) (word : str) : Prop :=
  match stopwords with
  | WordList l => word ∈ l
  | WordSet s => word ∈ s
  end.

End Languages.

(** ** Code that uses a pipeline *)

Module Caller.
Import Pipeline.

(** A call of one of the instance methods that change [_stack]. *)
Inductive method :=
  | Add (args : list fn)
  | After (existing_fn new_fn : fn)
  | Before (existing_fn new_fn : fn)
  | Remove (f : fn)
  | Reset.

Definition call_method (m : method) : M Self unit :=
  match m with
  | Add args => add args
  | After existing_fn new_fn => after existing_fn new_fn
  | Before existing_fn new_fn => before existing_fn new_fn
  | Remove f => remove f
  | Reset => reset
  end.

(** A caller that makes the calls one after the other on the same
    pipeline, catching whatever a call raises and going on. *)
Fixpoint call_all (ms : list method) (s : Self) : Self :=
  match ms with
  | [] => s
  | m :: ms' => call_all ms' (call_method m s).2
  end.

(** [register_function] called with a callable that takes no attributes
    (a bound method, a builtin), which is no value of [fn]: after the
    check for an existing registration, [fn.label = label] raises the
    [AttributeError] whose message is [message]. *)
Definition register_function_without_attributes (message label : str)
  : M World unit :=
  known ← is_registered label;
  (if known : bool
   then log_warning (py "Overwriting existing registered function " ++ label)
   else mret ());;
  raise (AttributeError message).

(** What a method call leaves of the world: everything but the log. *)
Definition same_objects (w w' : World) : Prop :=
  registered_functions w' = registered_functions w
  ∧ fn_label w' = fn_label w
  ∧ partials w' = partials w.

(** Every label that a function object carries is a key of the
    registry. *)
Definition labels_registered (w : World) : Prop :=
  ∀ f l, fn_label w !! f = Some l → is_Some (registered_functions w !! l).

(** The exception of reading [fn.label] off a function without one. *)
Definition no_label : exn :=
  AttributeError (py "'function' object has no attribute 'label'").

End Caller.

(** ** Concrete inputs *)

Module Examples.
Import Pipeline TokenChain Languages.

(** The state of a process that has registered nothing. *)
Definition empty_world : World :=
  {| registered_functions := ∅; fn_label := ∅; log := []; partials := [] |}.

(** After [Pipeline.register_function(f, "f")] for a function [f]. *)
Definition world_with_f : World :=
  (register_function (Function 0) (py "f") empty_world).2.

(** After registering a function as the French stemmer. *)
Definition world_with_french : World :=
  (register_function (Function 5) (py "stemmer-fr") empty_world).2.

Definition tok (s : string) : Token unit :=
  {| token_str := py s; token_metadata := () |}.

(** Stages that give back the text of the token, and so drop nothing
    that has text. *)
Definition text_of : fn → Token unit → nat → list (Token unit) → str :=
  λ _ t _ _, token_str t.

(** An [nltk] whose corpus has two French and two Arabic stop words and
    whose stemmers are numbered by their language name. *)
Definition nltk0 : nltk_module :=
  {| download := λ _, Return true;
     corpus_stopwords_words := λ language,
       if decide (language = py "french") then Return [py "le"; py "la"]
       else if decide (language = py "arabic")
       then Return [[1601; 1610]; [1605; 1606]]
       else Raise (ExternalError 0);
     SnowballStemmer := λ language,
       Return (StemmerObject
                 (N.to_nat (hd 0 language) * 100 + length language)) |}.

(** Imports whose generators hand out fixed function objects and whose
    [Builder()] has two empty pipelines. *)
Definition lib0 : Imports :=
  {| nltk := Some nltk0;
     stemmer := Function 1;
     stop_word_filter := Function 2;
     generate_trimmer := λ _ w, (Return (Function 3), w);
     generate_stop_word_filter := λ _ _ w, (Return (Function 4), w);
     Builder_new := λ w,
       (Return {| pipeline := __init__; search_pipeline := __init__ |}, w) |}.

(** The same imports in a process where [import nltk] failed. *)
Definition lib_without_nltk : Imports :=
  {| nltk := None;
     stemmer := stemmer lib0;
     stop_word_filter := stop_word_filter lib0;
     generate_trimmer := generate_trimmer lib0;
     generate_stop_word_filter := generate_stop_word_filter lib0;
     Builder_new := Builder_new lib0 |}.

End Examples.

(** * Properties *)

Import Pipeline TokenChain Languages.

(** ** The monad *)

Lemma bind_Return {S A B} (m : M S A) (k : A → M S B) s a s' :
  m s = (Return a, s') → (m ≫= k) s = k a s'.
Proof. intros E. unfold mbind, M_bind. by rewrite E. Qed.

Lemma bind_Raise {S A B} (m : M S A) (k : A → M S B) s e s' :
  m s = (Raise e, s') → (m ≫= k) s = (Raise e, s').
Proof. intros E. unfold mbind, M_bind. by rewrite E. Qed.

Lemma bind_inv_Return {S A B} (m : M S A) (k : A → M S B) s b s2 :
  (m ≫= k) s = (Return b, s2) →
  ∃ a s1, m s = (Return a, s1) ∧ k a s1 = (Return b, s2).
Proof.
  unfold mbind, M_bind. destruct (m s) as [[a|e] s1]; [eauto|done].
Qed.

Lemma on_fst_eq {S T A} (m : M S A) s (t : T) :
  on_fst m (s, t) = ((m s).1, ((m s).2, t)).
Proof. unfold on_fst. by destruct (m s). Qed.

(** ** Warnings *)

(** The check never raises; it only ever adds one record to the log,
    and that exactly when the function object has no [label]. *)
Lemma warn_if_function_not_registered_eq f w :
  warn_if_function_not_registered f w =
    match fn_label w !! f with
    | Some l =>
      (Return (Some (bool_decide (is_Some (registered_functions w !! l)))), w)
    | None => (Return None, (log_warning not_registered_warning w).2)
    end.
Proof.
  unfold warn_if_function_not_registered, try_except, mbind, M_bind,
    getattr_label.
  by destruct (fn_label w !! f).
Qed.

Lemma warn_returns f w :
  ∃ r, warn_if_function_not_registered f w
       = (Return r, (warn_if_function_not_registered f w).2).
Proof.
  rewrite warn_if_function_not_registered_eq.
  destruct (fn_label w !! f); eauto.
Qed.

Lemma warn_keeps_registry f w :
  registered_functions (warn_if_function_not_registered f w).2
    = registered_functions w
  ∧ fn_label (warn_if_function_not_registered f w).2 = fn_label w.
Proof.
  rewrite warn_if_function_not_registered_eq.
  by destruct (fn_label w !! f).
Qed.

Lemma add_cons f args w self :
  add (f :: args) (w, self)
  = (Raise no_push, ((warn_if_function_not_registered f w).2, self)).
Proof.
  destruct (warn_returns f w) as [r E].
  cbn [add].
  erewrite bind_Return; [|rewrite on_fst_eq, E; reflexivity].
  reflexivity.
Qed.

(** ** [run] *)

Section RunFacts.
Context {Token : Type}.
Variable call : fn → Token → nat → list Token → str.

Lemma run_tokens_started f tokens rest : ∀ i result,
  result ≠ [] →
  run_tokens call f tokens i rest result
  = result ++ mjoin (imap (λ j t, call f t (i + j)%nat tokens) rest).
Proof.
  induction rest as [|t rest IH]; intros i result Hne; cbn [run_tokens].
  - by rewrite app_nil_r.
  - rewrite bool_decide_false by (by destruct result).
    rewrite IH by (by destruct result).
    cbn. rewrite Nat.add_0_r, <-app_assoc. do 2 f_equal.
    f_equal. apply imap_ext. intros j x _. cbn. f_equal. lia.
Qed.

(** What one stage contributes: nothing when the first token's output is
    empty, otherwise the outputs for all the input tokens, concatenated. *)
Lemma run_tokens_eq f tokens :
  run_tokens call f tokens O tokens []
  = match tokens with
    | [] => []
    | t :: _ =>
      if bool_decide (call f t O tokens = []) then []
      else mjoin (imap (λ i t, call f t i tokens) tokens)
    end.
Proof.
  destruct tokens as [|t rest]; [done|].
  cbn [run_tokens app].
  case_bool_decide as E; [done|].
  rewrite run_tokens_started by done.
  reflexivity.
Qed.

Lemma run_stack_eq stack tokens : ∀ results,
  run_stack call stack tokens results
  = results ++ ((λ f, run_tokens call f tokens O tokens []) <$> stack).
Proof.
  induction stack as [|f stack IH]; intros results; cbn [run_stack].
  - by rewrite app_nil_r.
  - by rewrite IH, <-app_assoc.
Qed.

(** [run] gives one string per stage, each computed from the tokens that
    were passed in. *)
Lemma run_eq self tokens :
  run call self tokens
  = (λ f, run_tokens call f tokens O tokens []) <$> _stack self.
Proof. unfold run. by rewrite run_stack_eq. Qed.

End RunFacts.

(** C1 (code bug). [run] is not the per-token chain: with no stage it
    returns the empty list instead of the tokens it was given, and with
    two stages that return the token's text it returns one string per
    stage, each the concatenation of that stage's outputs over the
    original tokens, where the chain returns the two tokens. *)
Theorem run_is_not_the_token_chain :
  run Examples.text_of {| _stack := [] |} [Examples.tok "a"] = []
  ∧ run_chain Examples.text_of [] [Examples.tok "a"] = [Examples.tok "a"]
  ∧ run Examples.text_of {| _stack := [Function 0; Function 1] |}
      [Examples.tok "a"; Examples.tok "b"] = [py "ab"; py "ab"]
  ∧ run_chain Examples.text_of [Function 0; Function 1]
      [Examples.tok "a"; Examples.tok "b"]
    = [Examples.tok "a"; Examples.tok "b"].
Proof. repeat split. Qed.

(** C2 (code bug). The length of [run]'s result is the number of stages,
    whatever the tokens and whatever the stages return; with no stage
    and one token, or two stages that drop nothing and one token, it is
    not the number of tokens. *)
Theorem run_length_is_the_number_of_stages :
  (∀ (Token : Type) (call : fn → Token → nat → list Token → str)
     (self : Pipeline) (tokens : list Token),
     length (run call self tokens) = length (_stack self))
  ∧ length (run Examples.text_of {| _stack := [] |} [Examples.tok "a"]) = O
  ∧ length (run Examples.text_of {| _stack := [Function 0; Function 1] |}
              [Examples.tok "a"]) = 2%nat.
Proof.
  split; [|done].
  intros. by rewrite run_eq, length_fmap.
Qed.

(** ** [add] and [load] *)

(** C4 (code bug). [add] with at least one function raises
    [AttributeError] at [self._stack.push] for the first of them, after
    the registration check; [_stack] is what it was. *)
Theorem add_raises_at_the_first_function :
  ∀ (f : fn) (args : list fn) (w : World) (self : Pipeline),
    add (f :: args) (w, self)
    = (Raise no_push, ((warn_if_function_not_registered f w).2, self)).
Proof. intros. apply add_cons. Qed.

Lemma load_loop_unregistered fn_name rest w self :
  registered_functions w !! fn_name = None →
  load_loop (fn_name :: rest) (w, self) = (Raise cannot_load, (w, self)).
Proof.
  intros E. cbn [load_loop]. apply bind_Raise.
  unfold try_except. rewrite on_fst_eq. unfold registry_getitem.
  by rewrite E.
Qed.

Lemma load_loop_registered fn_name rest w self f :
  registered_functions w !! fn_name = Some f →
  load_loop (fn_name :: rest) (w, self)
  = (Raise no_push, ((warn_if_function_not_registered f w).2, self)).
Proof.
  intros E. cbn [load_loop].
  rewrite (bind_Return _ _ _ f (w, self)); cycle 1.
  { unfold try_except. rewrite on_fst_eq. unfold registry_getitem.
    by rewrite E. }
  apply bind_Raise, add_cons.
Qed.

Lemma load_unregistered fn_name rest w :
  registered_functions w !! fn_name = None →
  load (fn_name :: rest) w = (Raise cannot_load, w).
Proof. intros E. unfold load. by rewrite load_loop_unregistered. Qed.

Lemma load_registered fn_name rest w f :
  registered_functions w !! fn_name = Some f →
  load (fn_name :: rest) w
  = (Raise no_push, (warn_if_function_not_registered f w).2).
Proof. intros E. unfold load. by rewrite (load_loop_registered _ _ _ _ f). Qed.

(** C3 (code bug). For the pipeline whose one stage is registered as
    ["f"], [to_json] gives [["f"]] and loading that raises
    [AttributeError]; loading any list of labels that is not empty
    raises. *)
Theorem load_of_to_json_raises :
  to_json (Examples.world_with_f, {| _stack := [Function 0] |})
  = (Return [py "f"], (Examples.world_with_f, {| _stack := [Function 0] |}))
  ∧ load [py "f"] Examples.world_with_f = (Raise no_push, Examples.world_with_f)
  ∧ ∀ (label : str) (rest : list str) (w : World),
      ∃ e w', load (label :: rest) w = (Raise e, w').
Proof.
  split; [by vm_compute|]. split; [by vm_compute|].
  intros label rest w.
  destruct (registered_functions w !! label) as [f|] eqn:E.
  - rewrite (load_registered _ _ _ _ E). eauto.
  - rewrite (load_unregistered _ _ _ E). eauto.
Qed.

(** C5 (code bug). Loading a label that was never registered raises an
    exception whose message is the fixed text
    ["Cannot load unregistered function "]: the template has no field,
    so [format] leaves the label out. *)
Theorem load_error_does_not_name_the_label :
  load [py "stemmer-xx"] Examples.empty_world
  = (Raise (Exception (py "Cannot load unregistered function ")),
     Examples.empty_world)
  ∧ contains (py "stemmer-xx") (py "Cannot load unregistered function ")
    = false
  ∧ ∀ fn_name : str,
      format (py "Cannot load unregistered function ") fn_name
      = py "Cannot load unregistered function ".
Proof. repeat split. Qed.

(** ** [before] and [after] *)

Lemma py_eq_refl x : py_eq x x = true.
Proof. destruct x; cbn; by rewrite bool_decide_true. Qed.

(** For function and [partial] objects, equal is the same object. *)
Lemma py_eq_Function n y : py_eq y (Function n) = true ↔ y = Function n.
Proof.
  destruct y; cbn; try (split; [done|by intros [=]]).
  rewrite bool_decide_eq_true. split; [by intros ->|by intros [= ->]].
Qed.

Lemma list_index_first (x y : fn) l1 l2 :
  none_equal x l1 → py_eq y x = true →
  list_index x (l1 ++ y :: l2) = Some (length l1).
Proof.
  intros Hx Hy. induction Hx as [|z l1 Hz _ IH]; cbn.
  - by rewrite Hy.
  - by rewrite Hz, IH.
Qed.

Lemma list_index_absent (x : fn) l : none_equal x l → list_index x l = None.
Proof. induction 1 as [|z l Hz _ IH]; cbn; [done|]. by rewrite Hz, IH. Qed.

(** Either nothing in a list is equal to [x], or there is a first
    element that is. *)
Lemma first_equal_split (x : fn) l :
  none_equal x l
  ∨ ∃ l1 y l2, l = l1 ++ y :: l2 ∧ py_eq y x = true ∧ none_equal x l1.
Proof.
  induction l as [|z l IH]; [left; constructor|].
  destruct (py_eq z x) eqn:Hz.
  { right. exists [], z, l. repeat split; [done|constructor]. }
  destruct IH as [IH|(l1 & y & l2 & -> & Hy & Hl1)].
  - left. by constructor.
  - right. exists (z :: l1), y, l2. repeat split; [done|by constructor].
Qed.

Lemma insert_at existing_fn y new_fn l1 l2 w (i : nat → nat) :
  none_equal existing_fn l1 → py_eq y existing_fn = true →
  (index ← _stack_index existing_fn;
   _stack_insert (i index) new_fn) (w, {| _stack := l1 ++ y :: l2 |})
  = (Return (),
     (w, {| _stack := take (i (length l1)) (l1 ++ y :: l2)
                      ++ new_fn :: drop (i (length l1)) (l1 ++ y :: l2) |})).
Proof.
  intros Hx Hy.
  rewrite (bind_Return _ _ _ (length l1)
             (w, {| _stack := l1 ++ y :: l2 |})); [reflexivity|].
  unfold _stack_index. cbn [_stack]. by rewrite list_index_first.
Qed.

Lemma insert_absent existing_fn new_fn w self (i : nat → nat) :
  none_equal existing_fn (_stack self) →
  try_except
    (index ← _stack_index existing_fn; _stack_insert (i index) new_fn)
    (is_ValueError (raise cannot_find)) (w, self)
  = (Raise cannot_find, (w, self)).
Proof.
  intros Hx. unfold try_except.
  rewrite (bind_Raise _ _ _ ValueError (w, self)); [reflexivity|].
  unfold _stack_index. by rewrite list_index_absent.
Qed.

Lemma before_found existing_fn y new_fn w l1 l2 :
  none_equal existing_fn l1 → py_eq y existing_fn = true →
  before existing_fn new_fn (w, {| _stack := l1 ++ y :: l2 |})
  = (Return (),
     ((warn_if_function_not_registered new_fn w).2,
      {| _stack := l1 ++ new_fn :: y :: l2 |})).
Proof.
  intros Hx Hy. destruct (warn_returns new_fn w) as [r Hwarn].
  unfold before.
  rewrite (bind_Return _ _ _ r
             ((warn_if_function_not_registered new_fn w).2,
              {| _stack := l1 ++ y :: l2 |}))
    by (rewrite on_fst_eq, Hwarn; reflexivity).
  unfold try_except. rewrite (insert_at _ y _ _ _ _ (λ i, i) Hx Hy).
  by rewrite take_app_length, drop_app_length.
Qed.

Lemma after_found existing_fn y new_fn w l1 l2 :
  none_equal existing_fn l1 → py_eq y existing_fn = true →
  after existing_fn new_fn (w, {| _stack := l1 ++ y :: l2 |})
  = (Return (),
     ((warn_if_function_not_registered new_fn w).2,
      {| _stack := l1 ++ y :: new_fn :: l2 |})).
Proof.
  intros Hx Hy. destruct (warn_returns new_fn w) as [r Hwarn].
  unfold after.
  rewrite (bind_Return _ _ _ r
             ((warn_if_function_not_registered new_fn w).2,
              {| _stack := l1 ++ y :: l2 |}))
    by (rewrite on_fst_eq, Hwarn; reflexivity).
  unfold try_except.
  rewrite (insert_at _ y _ _ _ _ (λ i, (i + 1)%nat) Hx Hy).
  rewrite (cons_middle y l1 l2), app_assoc.
  replace (length l1 + 1)%nat with (length (l1 ++ [y]))
    by (rewrite length_app; reflexivity).
  rewrite take_app_length, drop_app_length.
  by rewrite <-app_assoc.
Qed.

Lemma positional_absent existing_fn new_fn w self :
  none_equal existing_fn (_stack self) →
  before existing_fn new_fn (w, self)
  = (Raise cannot_find, ((warn_if_function_not_registered new_fn w).2, self))
  ∧ after existing_fn new_fn (w, self)
    = (Raise cannot_find,
       ((warn_if_function_not_registered new_fn w).2, self)).
Proof.
  intros Hx. destruct (warn_returns new_fn w) as [r Hwarn].
  split; unfold before, after;
    rewrite (bind_Return _ _ _ r
               ((warn_if_function_not_registered new_fn w).2, self))
      by (rewrite on_fst_eq, Hwarn; reflexivity).
  - apply (insert_absent _ _ _ _ (λ i, i) Hx).
  - apply (insert_absent _ _ _ _ (λ i, (i + 1)%nat) Hx).
Qed.




(** ** [get_nltk_builder] *)

Lemma register_function_eq f label w :
  register_function f label w
  = (Return (),
     {| registered_functions := <[label := f]> (registered_functions w);
        fn_label := <[f := label]> (fn_label w);
        log := if bool_decide (is_Some (registered_functions w !! label))
               then log w ++ [py "Overwriting existing registered function "
                                ++ label]
               else log w;
        partials := partials w |}).
Proof.
  unfold register_function, mbind, M_bind, is_registered.
  by destruct (bool_decide _).
Qed.

(** The check on a function that has just been registered is silent. *)
Lemma warn_after_register f label w :
  warn_if_function_not_registered f (register_function f label w).2
  = (Return (Some true), (register_function f label w).2).
Proof.
  rewrite warn_if_function_not_registered_eq, register_function_eq.
  cbn [snd fn_label registered_functions].
  rewrite lookup_insert_eq, bool_decide_true; [done|].
  rewrite lookup_insert_eq. eauto.
Qed.

Section BundlerFacts.
Variable lib : Imports.

(** Once the loop over the languages is through and the imports have
    returned, the call registers the trimmer, empties
    [builder.pipeline], and raises at the first [builder.pipeline.add]. *)
Lemma get_nltk_builder_reaches_add languages w c w1 b w2 t w3 :
  collect lib languages nothing_collected w = (Return c, w1) →
  Builder_new lib w1 = (Return b, w2) →
  generate_trimmer lib (trimmer_alphabet (all_word_characters c)) w2
    = (Return t, w3) →
  get_nltk_builder lib languages w
  = (Raise no_push,
     ((register_function t (multi_trimmer_label languages) w3).2,
      Some {| pipeline := __init__;
              search_pipeline := search_pipeline b |})).
Proof.
  intros Hc Hb Ht.
  unfold get_nltk_builder, get_nltk_builder_body.
  rewrite (bind_Return _ _ _ c (w1, None))
    by (rewrite on_fst_eq, Hc; reflexivity).
  rewrite (bind_Return _ _ _ b (w2, None))
    by (rewrite on_fst_eq, Hb; reflexivity).
  rewrite (bind_Return _ _ _ () (w2, Some b)) by reflexivity.
  rewrite (bind_Return _ _ _ t (w3, Some b))
    by (rewrite on_fst_eq, Ht; reflexivity).
  rewrite (bind_Return _ _ _ ()
             ((register_function t (multi_trimmer_label languages) w3).2,
              Some b))
    by (rewrite on_fst_eq, register_function_eq; reflexivity).
  rewrite (bind_Return _ _ _ ()
             ((register_function t (multi_trimmer_label languages) w3).2,
              Some {| pipeline := __init__;
                      search_pipeline := search_pipeline b |}))
    by reflexivity.
  apply bind_Raise. cbn [app add_each]. apply bind_Raise.
  unfold on_pipeline. cbn [pipeline]. rewrite add_cons.
  by rewrite warn_after_register.
Qed.

Lemma get_nltk_builder_raises languages w :
  ∃ e frame, get_nltk_builder lib languages w = (Raise e, frame).
Proof.
  destruct (collect lib languages nothing_collected w) as [[c|e] w1] eqn:Hc;
    cycle 1.
  { unfold get_nltk_builder, get_nltk_builder_body.
    erewrite bind_Raise by (rewrite on_fst_eq, Hc; reflexivity). eauto. }
  destruct (Builder_new lib w1) as [[b|e] w2] eqn:Hb; cycle 1.
  { unfold get_nltk_builder, get_nltk_builder_body.
    rewrite (bind_Return _ _ _ c (w1, None))
      by (rewrite on_fst_eq, Hc; reflexivity).
    erewrite bind_Raise by (rewrite on_fst_eq, Hb; reflexivity). eauto. }
  destruct (generate_trimmer lib (trimmer_alphabet (all_word_characters c))
              w2) as [[t|e] w3] eqn:Ht; cycle 1.
  { unfold get_nltk_builder, get_nltk_builder_body.
    rewrite (bind_Return _ _ _ c (w1, None))
      by (rewrite on_fst_eq, Hc; reflexivity).
    rewrite (bind_Return _ _ _ b (w2, None))
      by (rewrite on_fst_eq, Hb; reflexivity).
    rewrite (bind_Return _ _ _ () (w2, Some b)) by reflexivity.
    erewrite bind_Raise by (rewrite on_fst_eq, Ht; reflexivity). eauto. }
  erewrite get_nltk_builder_reaches_add by eassumption. eauto.
Qed.

End BundlerFacts.

(** C7 (code bug). [get_nltk_builder] never returns a builder: whatever
    the languages, the call raises, and where the loop over the
    languages and the imports go through it raises [AttributeError] at
    the first [builder.pipeline.add], with both pipelines still empty.
    For [["en"]] that is after registering the trimmer. *)
Theorem get_nltk_builder_never_returns :
  (∀ (lib : Imports) (languages : list str) (w : World),
     ∃ e frame, get_nltk_builder lib languages w = (Raise e, frame))
  ∧ get_nltk_builder Examples.lib0 [py "en"] Examples.empty_world
    = (Raise no_push,
       ((register_function (Function 3) (py "lunr-multi-trimmer-en")
           Examples.empty_world).2,
        Some {| pipeline := {| _stack := [] |};
                search_pipeline := {| _stack := [] |} |})).
Proof.
  split; [apply get_nltk_builder_raises|].
  by vm_compute.
Qed.

(** ** The loop over the languages *)

Section CollectFacts.
Variable lib : Imports.

(** Looking up the stop words leaves the world alone, and its outcome
    does not depend on the world. *)
Lemma get_stopwords_pure language :
  ∃ r, ∀ w, _get_stopwords_and_word_characters lib language w = (r, w).
Proof.
  unfold _get_stopwords_and_word_characters, mbind, M_bind, global_nltk,
    external, supported_getitem, mret, M_ret.
  destruct (nltk lib) as [n|]; [|by eexists].
  destruct (download n _); [|by eexists].
  destruct (SUPPORTED_LANGUAGES !! language); [|by eexists].
  destruct (corpus_stopwords_words n _); by eexists.
Qed.

Lemma get_stopwords_unsupported bad w :
  SUPPORTED_LANGUAGES !! bad = None →
  ∃ e, _get_stopwords_and_word_characters lib bad w = (Raise e, w)
       ∧ ∀ n ok, nltk lib = Some n → download n (py "stopwords") = Return ok →
           e = KeyError bad.
Proof.
  intros Hbad.
  unfold _get_stopwords_and_word_characters, mbind, M_bind, global_nltk,
    external, supported_getitem.
  destruct (nltk lib) as [n|]; [|eexists; split; [done|by intros]].
  destruct (download n _) eqn:Hd.
  - rewrite Hbad. eexists; split; [done|by intros].
  - eexists; split; [done|]. intros n' ok [= <-]. by rewrite Hd.
Qed.

Lemma unsupported_is_not_en bad :
  SUPPORTED_LANGUAGES !! bad = None → bad ≠ py "en".
Proof. by intros Hbad ->. Qed.

Lemma collect_language_unsupported bad c w :
  SUPPORTED_LANGUAGES !! bad = None →
  ∃ e, collect_language lib bad c w = (Raise e, w)
       ∧ ∀ n ok, nltk lib = Some n → download n (py "stopwords") = Return ok →
           e = KeyError bad.
Proof.
  intros Hbad. unfold collect_language.
  rewrite decide_False by by apply unsupported_is_not_en.
  destruct (get_stopwords_unsupported bad w Hbad) as (e & He & Hkey).
  exists e. split; [|done]. by apply bind_Raise.
Qed.

Lemma collect_app pre post c w :
  collect lib (pre ++ post) c w
  = (c' ← collect lib pre c; collect lib post c') w.
Proof.
  revert c w. induction pre as [|l pre IH]; intros c w; [done|].
  cbn [app collect]. unfold mbind, M_bind in *.
  destruct (collect_language lib l c w) as [[c1|e] w1]; [|done].
  apply IH.
Qed.

Lemma collect_unsupported languages bad :
  bad ∈ languages → SUPPORTED_LANGUAGES !! bad = None →
  ∀ c w, ∃ e w', collect lib languages c w = (Raise e, w').
Proof.
  intros Hin Hbad. induction languages as [|l languages IH]; intros c w.
  { by apply elem_of_nil in Hin. }
  cbn [collect].
  destruct (collect_language lib l c w) as [[c1|e] w1] eqn:Hl; cycle 1.
  { erewrite bind_Raise by done. eauto. }
  erewrite bind_Return by done.
  apply elem_of_cons in Hin as [->|Hin]; [|by apply IH].
  destruct (collect_language_unsupported l c w Hbad) as (e & He & _).
  congruence.
Qed.

Lemma collect_stops_at_unsupported pre bad post n ok c w c1 w1 :
  SUPPORTED_LANGUAGES !! bad = None →
  nltk lib = Some n → download n (py "stopwords") = Return ok →
  collect lib pre c w = (Return c1, w1) →
  collect lib (pre ++ bad :: post) c w = (Raise (KeyError bad), w1).
Proof.
  intros Hbad Hn Hd Hpre. rewrite collect_app.
  erewrite bind_Return by done. cbn [collect]. apply bind_Raise.
  destruct (collect_language_unsupported bad c1 w1 Hbad) as (e & He & Hkey).
  by rewrite He, (Hkey n ok).
Qed.

End CollectFacts.

(** C9. When one of the requested languages is not a key of
    [SUPPORTED_LANGUAGES], [get_nltk_builder] raises while the local
    [builder] is still unbound: no [Builder] has been made, let alone
    changed. The exception is the [KeyError] of the table lookup, naming
    the language, when [nltk] is there, its download returns and the
    languages before the unsupported one went through. *)
Theorem unsupported_language_raises_before_the_builder_exists :
  ∀ (lib : Imports) (languages : list str) (bad : str) (w : World),
    bad ∈ languages →
    SUPPORTED_LANGUAGES !! bad = None →
    (∃ e w', get_nltk_builder lib languages w = (Raise e, (w', None)))
    ∧ (∀ pre post n ok c w1,
         languages = pre ++ bad :: post →
         nltk lib = Some n →
         download n (py "stopwords") = Return ok →
         collect lib pre nothing_collected w = (Return c, w1) →
         get_nltk_builder lib languages w
         = (Raise (KeyError bad), (w1, None))).
Proof.
  intros lib languages bad w Hin Hbad. split.
  - destruct (collect_unsupported lib languages bad Hin Hbad
                nothing_collected w) as (e & w' & He).
    exists e, w'. unfold get_nltk_builder, get_nltk_builder_body.
    apply bind_Raise. by rewrite on_fst_eq, He.
  - intros pre post n ok c w1 -> Hn Hd Hpre.
    unfold get_nltk_builder, get_nltk_builder_body.
    apply bind_Raise.
    by rewrite on_fst_eq,
      (collect_stops_at_unsupported lib pre bad post n ok _ _ c w1).
Qed.

(** C9 for the request [["en"; "zz"]]. *)
Lemma unsupported_language_witness :
  get_nltk_builder Examples.lib0 [py "en"; py "zz"] Examples.empty_world
  = (Raise (KeyError (py "zz")), (Examples.empty_world, None)).
Proof.
  refine (proj2 (unsupported_language_raises_before_the_builder_exists
                   Examples.lib0 [py "en"; py "zz"] (py "zz")
                   Examples.empty_world _ _)
            [py "en"] [] Examples.nltk0 true
            {| all_stemmers := [Function 1];
               all_stopwords_filters := [Function 2];
               all_word_characters := ∅ ∪ {[ py "\w" ]} |}
            Examples.empty_world _ _ _ _).
  - apply (bool_decide_unpack _). vm_compute. exact I.
  - vm_compute. reflexivity.
  - reflexivity.
  - reflexivity.
  - reflexivity.
  - reflexivity.
Defined.

(** ** The order of strings and [sorted] *)

Lemma str_leb_total s : ∀ t, str_leb s t = true ∨ str_leb t s = true.
Proof.
  induction s as [|a s IH]; intros [|b t]; cbn; auto.
  destruct (N.ltb_spec a b), (N.ltb_spec b a), (N.eqb_spec a b),
    (N.eqb_spec b a); auto; lia.
Qed.

Lemma str_leb_trans s : ∀ t u,
  str_leb s t = true → str_leb t u = true → str_leb s u = true.
Proof.
  induction s as [|a s IH]; intros [|b t] [|c u]; cbn; try done.
  destruct (N.ltb_spec a b), (N.ltb_spec b c), (N.ltb_spec a c),
    (N.eqb_spec a b), (N.eqb_spec b c), (N.eqb_spec a c);
    try done; try lia; eauto.
Qed.

#[local] Instance str_le_total : Total str_le.
Proof. intros s t. apply str_leb_total. Qed.

#[local] Instance str_le_trans : Transitive str_le.
Proof. intros s t u. apply str_leb_trans. Qed.

Lemma sorted_Permutation xs : sorted xs ≡ₚ xs.
Proof. apply merge_sort_Permutation. Qed.

Lemma elem_of_sorted x xs : x ∈ sorted xs ↔ x ∈ xs.
Proof. by rewrite sorted_Permutation. Qed.

Lemma StronglySorted_strict (l : list str) :
  StronglySorted str_le l → NoDup l → StronglySorted str_lt l.
Proof.
  induction 1 as [|x l Hl IH Hx]; intros Hnd; [constructor|].
  apply NoDup_cons in Hnd as [Hnotin Hnd].
  constructor; [by apply IH|].
  apply Forall_forall. intros y Hy. split.
  - by eapply Forall_forall in Hx.
  - by intros ->.
Qed.

(** [sorted] of the elements of a set is increasing without repeats. *)
Lemma sorted_elements_strict (s : gset str) :
  StronglySorted str_lt (sorted (elements s)).
Proof.
  apply StronglySorted_strict.
  - apply Sorted_StronglySorted; [apply _|]. apply Sorted_merge_sort, _.
  - rewrite sorted_Permutation. apply NoDup_elements.
Qed.

(** ** The merged word characters and the trimmer's label *)

Section TrimmerFacts.
Variable lib : Imports.

Lemma collect_language_characters language c w c1 w1 :
  collect_language lib language c w = (Return c1, w1) →
  all_word_characters c1
  = all_word_characters c ∪ language_word_characters lib language.
Proof.
  unfold collect_language, language_word_characters.
  destruct (decide (language = py "en")) as [->|Hne].
  { by intros [= <- <-]. }
  destruct (get_stopwords_pure lib language) as [r Hr].
  intros H. apply bind_inv_Return in H as ([sw wc] & w2 & H1 & H).
  rewrite Hr in H1 |- *. injection H1 as -> <-.
  apply bind_inv_Return in H as (g & w3 & _ & H).
  apply bind_inv_Return in H as (h & w4 & _ & H).
  by injection H as <- <-.
Qed.

Lemma collect_characters languages : ∀ c w c1 w1,
  collect lib languages c w = (Return c1, w1) →
  all_word_characters c1
  = all_word_characters c ∪ ⋃ (language_word_characters lib <$> languages).
Proof.
  induction languages as [|l languages IH]; intros c w c1 w1 H.
  - injection H as <- <-. cbn. by rewrite (right_id_L ∅ (∪)).
  - cbn [collect] in H.
    apply bind_inv_Return in H as (c2 & w2 & Hl & H).
    apply IH in H. apply collect_language_characters in Hl.
    rewrite H, Hl. cbn. by rewrite (assoc_L (∪)).
Qed.

End TrimmerFacts.

Lemma multi_trimmer_label_eq languages :
  multi_trimmer_label languages
  = py "lunr-multi-trimmer-" ++ join (py "-") languages.
Proof. unfold multi_trimmer_label. cbn. by rewrite app_nil_r. Qed.

(** C8, as the code has it. When the loop over the languages and the
    imports go through, [all_word_characters] is the union of the sets
    the languages contribute; the alphabet handed to [generate_trimmer]
    is that set's elements in increasing order without repeats, joined;
    and the resulting trimmer is registered (it is the value of its
    label in the registry and carries the label) under
    ["lunr-multi-trimmer-"] followed by the requested codes joined by
    ["-"] in the order in which they were requested. *)
Theorem multi_trimmer_is_registered_under_the_request_order_label :
  ∀ (lib : Imports) (languages : list str) (w : World)
    (c : Collected) (w1 : World) (b : Builder) (w2 : World)
    (multi_trimmer : fn) (w3 : World),
    collect lib languages nothing_collected w = (Return c, w1) →
    Builder_new lib w1 = (Return b, w2) →
    generate_trimmer lib (trimmer_alphabet (all_word_characters c)) w2
      = (Return multi_trimmer, w3) →
    let w' := (get_nltk_builder lib languages w).2.1 in
    let label := py "lunr-multi-trimmer-" ++ join (py "-") languages in
    all_word_characters c = ⋃ (language_word_characters lib <$> languages)
    ∧ trimmer_alphabet (all_word_characters c)
      = join [] (sorted (elements (all_word_characters c)))
    ∧ StronglySorted str_lt (sorted (elements (all_word_characters c)))
    ∧ (∀ x, x ∈ sorted (elements (all_word_characters c))
            ↔ x ∈ all_word_characters c)
    ∧ registered_functions w' !! label = Some multi_trimmer
    ∧ fn_label w' !! multi_trimmer = Some label.
Proof.
  intros lib languages w c w1 b w2 t w3 Hc Hb Ht w' label.
  split.
  { rewrite (collect_characters lib languages _ _ _ _ Hc). cbn.
    by rewrite (left_id_L ∅ (∪)). }
  split; [done|]. split; [apply sorted_elements_strict|].
  split. { intros x. by rewrite elem_of_sorted, elem_of_elements. }
  subst w' label.
  rewrite (get_nltk_builder_reaches_add lib languages w c w1 b w2 t w3)
    by done.
  rewrite register_function_eq, multi_trimmer_label_eq.
  cbn [fst snd registered_functions fn_label].
  by rewrite !lookup_insert_eq.
Qed.

(** C8 for the request [["fr"; "en"]]. *)
Lemma multi_trimmer_witness :
  let w' :=
    (get_nltk_builder Examples.lib0 [py "fr"; py "en"]
       Examples.world_with_french).2.1 in
  registered_functions w' !! py "lunr-multi-trimmer-fr-en"
    = Some (Function 3)
  ∧ fn_label w' !! Function 3 = Some (py "lunr-multi-trimmer-fr-en").
Proof.
  pose proof (multi_trimmer_is_registered_under_the_request_order_label
    Examples.lib0 [py "fr"; py "en"] Examples.world_with_french
    {| all_stemmers := [Function 5; Function 1];
       all_stopwords_filters := [Function 4; Function 2];
       all_word_characters :=
         ∅ ∪ word_characters_of (WordList [py "le"; py "la"])
           ∪ {[ py "\w" ]} |}
    Examples.world_with_french
    {| pipeline := __init__; search_pipeline := __init__ |}
    Examples.world_with_french (Function 3) Examples.world_with_french
    eq_refl eq_refl eq_refl) as H.
  exact (proj2 (proj2 (proj2 (proj2 H)))).
Defined.

Example trimmer_alphabet_fr_en :
  trimmer_alphabet
    (∅ ∪ word_characters_of (WordList [py "le"; py "la"]) ∪ {[ py "\w" ]})
  = py "\wael".
Proof. by vm_compute. Qed.

(** C8, as stated, fails: the label is built from the list as
    requested, not from the sorted list. The requests [["fr"; "en"]] and
    [["en"; "fr"]] name the same set of languages; the first registers
    the trimmer under ["lunr-multi-trimmer-fr-en"] and leaves the key of
    the sorted list, ["lunr-multi-trimmer-en-fr"], unbound, and it is
    the second that binds that one. *)
Lemma same_languages_in_another_order_get_another_label :
  let fr_en := (get_nltk_builder Examples.lib0 [py "fr"; py "en"]
                  Examples.world_with_french).2.1 in
  let en_fr := (get_nltk_builder Examples.lib0 [py "en"; py "fr"]
                  Examples.world_with_french).2.1 in
  [py "fr"; py "en"] ≡ₚ [py "en"; py "fr"]
  ∧ sorted [py "fr"; py "en"] = [py "en"; py "fr"]
  ∧ multi_trimmer_label [py "fr"; py "en"] = py "lunr-multi-trimmer-fr-en"
  ∧ multi_trimmer_label [py "en"; py "fr"] = py "lunr-multi-trimmer-en-fr"
  ∧ registered_functions fr_en !! py "lunr-multi-trimmer-fr-en"
    = Some (Function 3)
  ∧ registered_functions fr_en !! py "lunr-multi-trimmer-en-fr" = None
  ∧ registered_functions en_fr !! py "lunr-multi-trimmer-en-fr"
    = Some (Function 3)
  ∧ ¬ (∀ l1 l2 : list str,
         l1 ≡ₚ l2 → multi_trimmer_label l1 = multi_trimmer_label l2).
Proof.
  split; [apply Permutation_swap|].
  do 6 (split; [by vm_compute|]).
  intros H. specialize (H [py "fr"; py "en"] [py "en"; py "fr"]
                          (Permutation_swap _ _ _)).
  by vm_compute in H.
Qed.

(** ** The language code ["fa"] *)

Lemma elem_of_characters (x word : str) :
  x ∈ characters word ↔ ∃ ch, ch ∈ word ∧ x = [ch].
Proof.
  unfold characters. rewrite elem_of_list_to_set, list_elem_of_fmap.
  split; intros (ch & ? & ?); eauto.
Qed.

Lemma elem_of_word_characters_of (x : str) stopwords :
  x ∈ word_characters_of stopwords
  ↔ ∃ word ch, has_word stopwords word ∧ ch ∈ word ∧ x = [ch].
Proof.
  destruct stopwords as [l|s]; cbn [word_characters_of has_word];
    rewrite elem_of_union_list; split.
  - intros (X & HX & Hx). apply list_elem_of_fmap in HX as (word & -> & Hw).
    apply elem_of_characters in Hx as (ch & ? & ?). eauto.
  - intros (word & ch & Hw & Hch & ->). exists (characters word).
    split; [by apply list_elem_of_fmap_2|].
    apply elem_of_characters. eauto.
  - intros (X & HX & Hx). apply list_elem_of_fmap in HX as (word & -> & Hw).
    apply elem_of_elements in Hw.
    apply elem_of_characters in Hx as (ch & ? & ?). eauto.
  - intros (word & ch & Hw & Hch & ->). exists (characters word).
    split; [apply list_elem_of_fmap_2; by apply elem_of_elements|].
    apply elem_of_characters. eauto.
Qed.


Lemma stemmer_label_eq language :
  format (py "stemmer-{}") language = py "stemmer-" ++ language.
Proof. cbn. by rewrite app_nil_r. Qed.

Lemma supported_fa : SUPPORTED_LANGUAGES !! py "fa" = Some (py "arabic").
Proof. by vm_compute. Qed.

Lemma stemmer_fa_label : format (py "stemmer-{}") (py "fa") = py "stemmer-fa".
Proof. by vm_compute. Qed.

Lemma fa_is_not_en : py "fa" ≠ py "en".
Proof. by vm_compute. Qed.

Section PersianFacts.
Variable lib : Imports.
Variable n : nltk_module.
Hypothesis nltk_imported : nltk lib = Some n.

Lemma get_language_stemmer_inv language w s w1 :
  get_language_stemmer lib language w = (Return s, w1) →
  w1 = w ∧ ∃ verbose_language,
    SUPPORTED_LANGUAGES !! language = Some verbose_language
    ∧ SnowballStemmer n verbose_language = Return s.
Proof.
  unfold get_language_stemmer, mbind, M_bind, global_nltk, external,
    supported_getitem.
  rewrite nltk_imported.
  destruct (SUPPORTED_LANGUAGES !! language) as [v|]; [|done].
  destruct (SnowballStemmer n v) eqn:Hs; [|done].
  intros [= <- <-]. eauto.
Qed.

(** One turn of the loop in [register_languages]. *)
Lemma register_language_turn language rest w w' :
  register_languages_in lib (language :: rest) w = (Return (), w') →
  ∃ s verbose_language,
    SUPPORTED_LANGUAGES !! language = Some verbose_language
    ∧ SnowballStemmer n verbose_language = Return s
    ∧ register_languages_in lib rest
        {| registered_functions :=
             <[py "stemmer-" ++ language := Partial (length (partials w))]>
               (registered_functions w);
           fn_label :=
             <[Partial (length (partials w)) := py "stemmer-" ++ language]>
               (fn_label w);
           log := if bool_decide
                       (is_Some (registered_functions w
                                   !! (py "stemmer-" ++ language)))
                  then log w ++ [py "Overwriting existing registered function "
                                   ++ (py "stemmer-" ++ language)]
                  else log w;
           partials := partials w ++ [s] |}
      = (Return (), w').
Proof.
  cbn [register_languages_in]. intros H.
  apply bind_inv_Return in H as (s & w1 & Hs & H).
  apply get_language_stemmer_inv in Hs as (-> & v & Hv & Hs).
  apply bind_inv_Return in H as (f & w2 & Hf & H).
  injection Hf as <- <-.
  apply bind_inv_Return in H as ([] & w3 & Hr & H).
  rewrite register_function_eq, stemmer_label_eq in Hr.
  injection Hr as <-. eauto.
Qed.

Lemma register_languages_fa order : ∀ w w',
  register_languages_in lib order w = (Return (), w') →
  py "fa" ∈ order ∨ fa_is_arabic n w →
  fa_is_arabic n w'.
Proof.
  induction order as [|language rest IH]; intros w w' Hrun Hfa.
  { injection Hrun as <-. destruct Hfa as [Hin|]; [|done].
    by apply elem_of_nil in Hin. }
  apply register_language_turn in Hrun as (s & v & Hv & Hs & Hrun).
  apply IH in Hrun; [done|].
  destruct (decide (language = py "fa")) as [->|Hne].
  - right. exists (length (partials w)), s.
    cbn [registered_functions partials].
    rewrite lookup_insert_eq, list_lookup_middle by done.
    rewrite supported_fa in Hv. injection Hv as <-. done.
  - destruct Hfa as [Hin|(a & s' & Hreg & Hpart & Hs')].
    + apply elem_of_cons in Hin as [?|?]; [done|by left].
    + right. exists a, s'. cbn [registered_functions partials].
      rewrite lookup_insert_ne by (intros [= ?]; by apply Hne).
      by rewrite (lookup_app_l_Some _ _ _ _ Hpart).
Qed.

Lemma get_stopwords_fa ok arabic_words w :
  download n (py "stopwords") = Return ok →
  corpus_stopwords_words n (py "arabic") = Return arabic_words →
  _get_stopwords_and_word_characters lib (py "fa") w
  = (Return (WordSet persian_stopwords,
             word_characters_of (WordSet persian_stopwords)), w).
Proof.
  intros Hd Hwords.
  unfold _get_stopwords_and_word_characters, mbind, M_bind, global_nltk,
    external, supported_getitem.
  rewrite nltk_imported, Hd, supported_fa, Hwords.
  reflexivity.
Qed.

Lemma collect_language_fa ok arabic_words c w f g w1 :
  download n (py "stopwords") = Return ok →
  corpus_stopwords_words n (py "arabic") = Return arabic_words →
  registered_functions w !! py "stemmer-fa" = Some f →
  generate_stop_word_filter lib (WordSet persian_stopwords) (py "fa") w
    = (Return g, w1) →
  collect_language lib (py "fa") c w
  = (Return {| all_stemmers := all_stemmers c ++ [f];
               all_stopwords_filters := all_stopwords_filters c ++ [g];
               all_word_characters :=
                 all_word_characters c
                 ∪ word_characters_of (WordSet persian_stopwords) |}, w1).
Proof.
  intros Hd Hwords Hf Hg. unfold collect_language.
  rewrite (decide_False (P := py "fa" = py "en")) by exact fa_is_not_en.
  unfold mbind, M_bind.
  rewrite (get_stopwords_fa ok arabic_words w Hd Hwords).
  unfold registry_getitem. rewrite stemmer_fa_label, Hf, Hg.
  reflexivity.
Qed.

End PersianFacts.

Lemma fa_is_registered : py "fa" ∈ elements registered_codes.
Proof. apply (bool_decide_unpack _). by vm_compute. Qed.

Lemma supported_ar : SUPPORTED_LANGUAGES !! py "ar" = Some (py "arabic").
Proof. by vm_compute. Qed.

Lemma elem_of_persian_stopwords (word : str) :
  word ∈ persian_stopwords ↔ word ∈ split 32 persian_stopwords_literal.
Proof. unfold persian_stopwords. apply elem_of_list_to_set. Qed.

Lemma persian_stopwords_size : size persian_stopwords = 333%nat.
Proof.
  assert (persian_stopwords
          = list_to_set (remove_dups (split 32 persian_stopwords_literal)))
    as ->.
  { apply set_eq. intros word.
    by rewrite elem_of_persian_stopwords, elem_of_list_to_set,
      elem_of_remove_dups. }
  rewrite size_list_to_set by apply NoDup_remove_dups.
  by vm_compute.
Qed.

Lemma persian_letters_occur :
  Forall (λ ch, ch ∈ persian_letters)
    (mjoin (split 32 persian_stopwords_literal))
  ∧ Forall (λ ch, ch ∈ mjoin (split 32 persian_stopwords_literal))
      persian_letters.
Proof. split; apply (bool_decide_unpack _); by vm_compute. Qed.

Lemma persian_word_characters (ch : N) :
  [ch] ∈ word_characters_of (WordSet persian_stopwords)
  ↔ ch ∈ persian_letters.
Proof.
  destruct persian_letters_occur as [Hin Hall].
  rewrite elem_of_word_characters_of. cbn [has_word]. split.
  - intros (word & c & Hword & Hc & [= ->]).
    apply elem_of_persian_stopwords in Hword.
    rewrite Forall_forall in Hin. apply Hin.
    apply list_elem_of_join. eauto.
  - intros Hch. rewrite Forall_forall in Hall. apply Hall in Hch.
    apply list_elem_of_join in Hch as (word & Hc & Hword).
    exists word, ch. by rewrite elem_of_persian_stopwords.
Qed.

Section ArabicFacts.
Variable lib : Imports.
Variable n : nltk_module.
Hypothesis nltk_imported : nltk lib = Some n.

Lemma get_stopwords_ar ok arabic_words w :
  download n (py "stopwords") = Return ok →
  corpus_stopwords_words n (py "arabic") = Return arabic_words →
  _get_stopwords_and_word_characters lib (py "ar") w
  = (Return (WordList arabic_words,
             word_characters_of (WordList arabic_words)), w).
Proof.
  intros Hd Hwords.
  unfold _get_stopwords_and_word_characters, mbind, M_bind, global_nltk,
    external, supported_getitem.
  rewrite nltk_imported, Hd, supported_ar, Hwords.
  reflexivity.
Qed.

End ArabicFacts.

(** C10. [SUPPORTED_LANGUAGES] maps ["fa"] to ["arabic"], as it does
    ["ar"]. For ["fa"] the stop words are the hard-coded set
    [persian_stopwords], whatever the corpus returned for ["arabic"],
    where for ["ar"] they are the list the corpus returned. That set is
    made of the items between the spaces of the literal: 333 different
    ones, the word "است" and the empty string among them. The word
    characters for ["fa"] are exactly the characters of those words, the
    39 of [persian_letters]. The turn of the bundler's loop for ["fa"]
    builds the stop-word filter from that set and merges those
    characters, and takes as stemmer the function registered as
    ["stemmer-fa"], which [register_languages] binds to a [partial]
    over the stemmer [nltk] makes for ["arabic"]. *)
Theorem fa_has_persian_stop_words_and_the_arabic_stemmer :
  ∀ (lib : Imports) (n : nltk_module) (ok : bool) (arabic_words : list str)
    (iteration : gset str → list str) (w w' : World),
    nltk lib = Some n →
    download n (py "stopwords") = Return ok →
    corpus_stopwords_words n (py "arabic") = Return arabic_words →
    (∀ s, iteration s ≡ₚ elements s) →
    register_languages lib iteration w = (Return (), w') →
    SUPPORTED_LANGUAGES !! py "fa" = Some (py "arabic")
    ∧ (∀ w0,
         _get_stopwords_and_word_characters lib (py "fa") w0
         = (Return (WordSet persian_stopwords,
                    word_characters_of (WordSet persian_stopwords)), w0))
    ∧ (∀ c w0 f g w1,
         registered_functions w0 !! py "stemmer-fa" = Some f →
         generate_stop_word_filter lib (WordSet persian_stopwords) (py "fa")
           w0 = (Return g, w1) →
         collect_language lib (py "fa") c w0
         = (Return
              {| all_stemmers := all_stemmers c ++ [f];
                 all_stopwords_filters := all_stopwords_filters c ++ [g];
                 all_word_characters :=
                   all_word_characters c
                   ∪ word_characters_of (WordSet persian_stopwords) |}, w1))
    ∧ fa_is_arabic n w'
    ∧ (∀ w0,
         _get_stopwords_and_word_characters lib (py "ar") w0
         = (Return (WordList arabic_words,
                    word_characters_of (WordList arabic_words)), w0))
    ∧ (∀ word,
         word ∈ persian_stopwords
         ↔ word ∈ split 32 persian_stopwords_literal)
    ∧ size persian_stopwords = 333%nat
    ∧ utf8 "است" ∈ persian_stopwords
    ∧ [] ∈ persian_stopwords
    ∧ (∀ x,
         x ∈ word_characters_of (WordSet persian_stopwords)
         ↔ ∃ word ch, word ∈ persian_stopwords ∧ ch ∈ word ∧ x = [ch])
    ∧ (∀ ch,
         [ch] ∈ word_characters_of (WordSet persian_stopwords)
         ↔ ch ∈ persian_letters).
Proof.
  intros lib n ok arabic_words iteration w w' Hn Hd Hwords Horder Hrun.
  split; [exact supported_fa|]. split.
  { intros w0. exact (get_stopwords_fa lib n Hn ok arabic_words w0 Hd Hwords). }
  split.
  { intros c w0 f g w1.
    exact (collect_language_fa lib n Hn ok arabic_words c w0 f g w1
             Hd Hwords). }
  split.
  { apply (register_languages_fa lib n Hn _ w w' Hrun).
    left. rewrite Horder. exact fa_is_registered. }
  split.
  { intros w0. exact (get_stopwords_ar lib n Hn ok arabic_words w0 Hd Hwords). }
  split; [exact elem_of_persian_stopwords|].
  split; [exact persian_stopwords_size|].
  split.
  { apply elem_of_persian_stopwords, (bool_decide_unpack _). by vm_compute. }
  split.
  { apply elem_of_persian_stopwords, (bool_decide_unpack _). by vm_compute. }
  split.
  { intros x. exact (elem_of_word_characters_of x (WordSet persian_stopwords)). }
  exact persian_word_characters.
Qed.

(** C10 for an interpreter that iterates a set in the order of
    [elements], starting from a process that has registered nothing,
    with a corpus that has two other words for ["arabic"]. *)
Lemma fa_witness :
  _get_stopwords_and_word_characters Examples.lib0 (py "fa")
    Examples.empty_world
  = (Return (WordSet persian_stopwords,
             word_characters_of (WordSet persian_stopwords)),
     Examples.empty_world)
  ∧ _get_stopwords_and_word_characters Examples.lib0 (py "ar")
      Examples.empty_world
    = (Return (WordList [[1601; 1610]; [1605; 1606]],
               word_characters_of (WordList [[1601; 1610]; [1605; 1606]])),
       Examples.empty_world)
  ∧ utf8 "است" ∈ persian_stopwords
  ∧ size persian_stopwords = 333%nat
  ∧ ([1587] ∈ word_characters_of (WordSet persian_stopwords)
     ↔ 1587 ∈ persian_letters)
  ∧ fa_is_arabic Examples.nltk0
      (register_languages Examples.lib0 elements Examples.empty_world).2.
Proof.
  pose proof (fa_has_persian_stop_words_and_the_arabic_stemmer
    Examples.lib0 Examples.nltk0 true [[1601; 1610]; [1605; 1606]]
    elements Examples.empty_world
    (register_languages Examples.lib0 elements Examples.empty_world).2
    eq_refl eq_refl eq_refl (λ s, reflexivity (elements s))) as H.
  destruct H as (_ & Hfa & _ & Hstem & Har & _ & Hsize & Hword & _ & _ & Hch).
  { vm_compute. reflexivity. }
  split; [exact (Hfa Examples.empty_world)|].
  split; [exact (Har Examples.empty_world)|].
  split; [exact Hword|]. split; [exact Hsize|].
  split; [exact (Hch 1587)|exact Hstem].
Defined.

(** * Further properties of the code *)

Import Caller.

(** ** The registry *)

(** X1. For a callable that takes attributes (a function, a [partial]
    object, an instance of a class: the values of [fn]),
    [register_function] returns. Afterwards the label resolves to the
    callable and the callable carries the label, the check on it is
    silent and positive, every other label and every other callable's
    label is as before, and the log has grown by one ["Overwriting ..."]
    record exactly when the label was already bound. For a callable that
    takes no attributes (a bound method, a builtin) it raises the
    [AttributeError] of [fn.label = label] and leaves the registry and
    all labels as they were, but the ["Overwriting ..."] record, when
    the label was bound, has been logged by then. *)
Theorem register_function_binds_label_and_function :
  ∀ (f : fn) (label : str) (w : World),
    let w' := (register_function f label w).2 in
    register_function f label w = (Return (), w')
    ∧ registry_getitem label w' = (Return f, w')
    ∧ getattr_label f w' = (Return label, w')
    ∧ warn_if_function_not_registered f w' = (Return (Some true), w')
    ∧ (∀ l, l ≠ label →
         registered_functions w' !! l = registered_functions w !! l)
    ∧ (∀ g, g ≠ f → fn_label w' !! g = fn_label w !! g)
    ∧ log w'
      = (if bool_decide (is_Some (registered_functions w !! label))
         then log w ++ [py "Overwriting existing registered function "
                          ++ label]
         else log w)
    ∧ partials w' = partials w
    ∧ ∀ message,
        register_function_without_attributes message label w
        = (Raise (AttributeError message),
           {| registered_functions := registered_functions w;
              fn_label := fn_label w;
              log := log w';
              partials := partials w |}).
Proof.
  intros f label w w'. subst w'.
  split; [by rewrite register_function_eq|].
  split.
  { unfold registry_getitem. rewrite register_function_eq.
    cbn [snd registered_functions]. by rewrite lookup_insert_eq. }
  split.
  { unfold getattr_label. rewrite register_function_eq.
    cbn [snd fn_label]. by rewrite lookup_insert_eq. }
  split; [apply warn_after_register|].
  rewrite register_function_eq. cbn [snd registered_functions fn_label log].
  split; [intros l Hl; by rewrite lookup_insert_ne|].
  split; [intros g Hg; by rewrite lookup_insert_ne|].
  split; [done|]. split; [done|].
  intros message.
  unfold register_function_without_attributes, mbind, M_bind, is_registered.
  destruct (bool_decide _); [reflexivity|].
  by destruct w.
Qed.

(** X2. Registering a second function under a label that a first one
    has: the label now resolves to the second, but the first keeps its
    [label] attribute, so the registration check still answers [True]
    for it without a warning; the only trace is the ["Overwriting ..."]
    record. *)
Theorem overwriting_a_label_leaves_the_old_function_labelled :
  ∀ (f g : fn) (label : str) (w : World),
    f ≠ g →
    let w1 := (register_function f label w).2 in
    let w2 := (register_function g label w1).2 in
    registry_getitem label w2 = (Return g, w2)
    ∧ getattr_label f w2 = (Return label, w2)
    ∧ getattr_label g w2 = (Return label, w2)
    ∧ warn_if_function_not_registered f w2 = (Return (Some true), w2)
    ∧ log w2
      = log w1 ++ [py "Overwriting existing registered function " ++ label].
Proof.
  intros f g label w Hfg w1 w2. subst w1 w2.
  rewrite warn_if_function_not_registered_eq.
  unfold registry_getitem, getattr_label.
  rewrite !register_function_eq.
  cbn [snd registered_functions fn_label log].
  rewrite !lookup_insert_eq, lookup_insert_ne by done.
  rewrite !lookup_insert_eq.
  rewrite !bool_decide_true by eauto.
  done.
Qed.

(** X2 for two functions registered as ["f"] one after the other. *)
Lemma overwriting_witness :
  let w2 := (register_function (Function 1) (py "f")
               Examples.world_with_f).2 in
  registry_getitem (py "f") w2 = (Return (Function 1), w2)
  ∧ getattr_label (Function 0) w2 = (Return (py "f"), w2)
  ∧ getattr_label (Function 1) w2 = (Return (py "f"), w2)
  ∧ warn_if_function_not_registered (Function 0) w2 = (Return (Some true), w2)
  ∧ log w2
    = log Examples.world_with_f
      ++ [py "Overwriting existing registered function " ++ py "f"].
Proof.
  apply (overwriting_a_label_leaves_the_old_function_labelled
           (Function 0) (Function 1) (py "f") Examples.empty_world).
  discriminate.
Defined.

(** The registration check never raises and changes nothing but the
    log. It logs its warning exactly when the function object has no
    [label] attribute; for a function whose label is not a key of the
    registry it answers [False] and logs nothing. *)
Lemma warn_only_for_functions_without_a_label :
  ∀ (f : fn) (w : World),
    warn_if_function_not_registered f w
    = match fn_label w !! f with
      | Some l =>
        (Return (Some (bool_decide (is_Some (registered_functions w !! l)))),
         w)
      | None =>
        (Return None,
         {| registered_functions := registered_functions w;
            fn_label := fn_label w;
            log := log w ++ [not_registered_warning];
            partials := partials w |})
      end.
Proof. intros. apply warn_if_function_not_registered_eq. Qed.

(** ** [run] and [run_string] *)

(** X4. [run] gives one string per stage, in stage order, each computed
    from the tokens passed in: the empty string when there is no token
    or the stage's output for the first token is empty, and otherwise
    the stage's outputs for all the tokens, concatenated. *)
Theorem run_gives_one_concatenation_per_stage :
  ∀ (Token : Type) (call : fn → Token → nat → list Token → str)
    (self : Pipeline) (tokens : list Token),
    run call self tokens
    = (λ f,
         match tokens with
         | [] => []
         | t :: _ =>
           if bool_decide (call f t O tokens = []) then []
           else mjoin (imap (λ i t, call f t i tokens) tokens)
         end) <$> _stack self.
Proof.
  intros. rewrite run_eq. apply list_fmap_ext. intros _ f _.
  apply run_tokens_eq.
Qed.

(** X5. [run_string] gives, for each stage in stage order, what that
    stage returns for the token made from the string, at index 0 of the
    one-token list; no stage sees another stage's output. *)
Theorem run_string_gives_each_stage_its_own_output :
  ∀ (Token : Type) (call : fn → Token → nat → list Token → str)
    (Token_new : str → Token) (self : Pipeline) (string : str),
    run_string call Token_new self string
    = (λ f, call f (Token_new string) O [Token_new string]) <$> _stack self.
Proof.
  intros. unfold run_string. rewrite list_fmap_id, run_eq.
  apply list_fmap_ext. intros _ f _. cbn [run_tokens app].
  by case_bool_decide.
Qed.

(** ** [remove], [reset] and a pipeline in use *)

Lemma list_remove_first (x y : fn) l1 l2 :
  none_equal x l1 → py_eq y x = true →
  list_remove x (l1 ++ y :: l2) = Some (l1 ++ l2).
Proof.
  intros Hx Hy. induction Hx as [|z l1 Hz _ IH]; cbn.
  - by rewrite Hy.
  - by rewrite Hz, IH.
Qed.

Lemma list_remove_absent (x : fn) l : none_equal x l → list_remove x l = None.
Proof. induction 1 as [|z l Hz _ IH]; cbn; [done|]. by rewrite Hz, IH. Qed.

Lemma remove_first f y w l1 l2 :
  none_equal f l1 → py_eq y f = true →
  remove f (w, {| _stack := l1 ++ y :: l2 |})
  = (Return (), (w, {| _stack := l1 ++ l2 |})).
Proof.
  intros Hf Hy. unfold remove, try_except, _stack_remove. cbn [_stack].
  by rewrite (list_remove_first f y).
Qed.

Lemma remove_absent f w self :
  none_equal f (_stack self) → remove f (w, self) = (Return (), (w, self)).
Proof.
  intros Hf. unfold remove, try_except, _stack_remove.
  by rewrite list_remove_absent.
Qed.

(** X6. [remove] never raises and leaves the world alone. It deletes the
    first element of [_stack] that is equal ([==]) to the given function
    and no other, so a function that is in the pipeline twice is still
    in it once afterwards; when no element of [_stack] is equal to the
    function, nothing changes. For a function object, being equal to it
    is being it. *)
Theorem remove_deletes_the_first_occurrence_only :
  ∀ (f : fn) (w : World) (self : Pipeline),
    (∀ l1 y l2,
       _stack self = l1 ++ y :: l2 →
       py_eq y f = true →
       none_equal f l1 →
       remove f (w, self) = (Return (), (w, {| _stack := l1 ++ l2 |})))
    ∧ (none_equal f (_stack self) →
       remove f (w, self) = (Return (), (w, self)))
    ∧ (∀ n y, (py_eq y (Function n) = true) ↔ (y = Function n)).
Proof.
  intros f w [stack]. split; [|split].
  - cbn [_stack]. intros l1 y l2 -> Hy Hf. by apply remove_first.
  - apply remove_absent.
  - apply py_eq_Function.
Qed.

(** X6 on a pipeline that has the function twice, and on one that does
    not have it. *)
Lemma remove_witness :
  remove (Function 1)
    (Examples.empty_world,
     {| _stack := [Function 0; Function 1; Function 2; Function 1] |})
  = (Return (),
     (Examples.empty_world,
      {| _stack := [Function 0; Function 2; Function 1] |}))
  ∧ remove (Function 5) (Examples.empty_world, {| _stack := [Function 0] |})
    = (Return (), (Examples.empty_world, {| _stack := [Function 0] |})).
Proof.
  split.
  - apply (proj1 (remove_deletes_the_first_occurrence_only (Function 1)
             Examples.empty_world
             {| _stack := [Function 0; Function 1; Function 2; Function 1] |})
             [Function 0] (Function 1) [Function 2; Function 1]).
    + reflexivity.
    + reflexivity.
    + repeat constructor.
  - apply (proj1 (proj2 (remove_deletes_the_first_occurrence_only
             (Function 5) Examples.empty_world {| _stack := [Function 0] |}))).
    repeat constructor.
Defined.

(** X7. Inserting a function with [before] or [after] and then removing
    it gives back the [_stack] there was, provided no element ahead of
    the first one equal to [existing_fn] is equal to the function (then
    [remove] would take that earlier element) and, for [after], the
    element found is the function itself or not equal to it, as it
    always is when the two are function objects; in general [remove]
    after [after] leaves the function in the place of an element equal
    to it. In between, [len] is one more. *)
Theorem insert_then_remove_restores_the_stack :
  ∀ (w : World) (l1 : list fn) (y : fn) (l2 : list fn)
    (existing_fn new_fn : fn),
    py_eq y existing_fn = true →
    none_equal existing_fn l1 →
    none_equal new_fn l1 →
    let self := {| _stack := l1 ++ y :: l2 |} in
    let w' := (warn_if_function_not_registered new_fn w).2 in
    (before existing_fn new_fn;; remove new_fn) (w, self)
    = (Return (), (w', self))
    ∧ (after existing_fn new_fn;; remove new_fn) (w, self)
      = (Return (),
         (w', {| _stack := l1 ++ (if py_eq y new_fn then new_fn else y)
                                   :: l2 |}))
    ∧ ((py_eq y new_fn = true → y = new_fn) →
       (after existing_fn new_fn;; remove new_fn) (w, self)
       = (Return (), (w', self)))
    ∧ __len__ (before existing_fn new_fn (w, self)).2.2 = S (__len__ self)
    ∧ __len__ (after existing_fn new_fn (w, self)).2.2 = S (__len__ self).
Proof.
  intros w l1 y l2 e n Hy He Hn self w'. subst self w'.
  assert (Hafter :
    (after e n;; remove n) (w, {| _stack := l1 ++ y :: l2 |})
    = (Return (),
       ((warn_if_function_not_registered n w).2,
        {| _stack := l1 ++ (if py_eq y n then n else y) :: l2 |}))).
  { rewrite (bind_Return _ _ _ _ _ (after_found e y n w l1 l2 He Hy)).
    destruct (py_eq y n) eqn:Hyn.
    - by rewrite (remove_first n y _ l1 (n :: l2) Hn Hyn).
    - rewrite (cons_middle y l1 (n :: l2)), app_assoc.
      rewrite (remove_first n n _ (l1 ++ [y]) l2).
      + by rewrite <-app_assoc.
      + apply Forall_app. split; [done|by repeat constructor].
      + apply py_eq_refl. }
  split; [|split; [exact Hafter|split]].
  - rewrite (bind_Return _ _ _ _ _ (before_found e y n w l1 l2 He Hy)).
    by rewrite (remove_first n n _ l1 (y :: l2) Hn (py_eq_refl n)).
  - intros Hsame. rewrite Hafter.
    destruct (py_eq y n) eqn:Hyn; [|done]. by rewrite (Hsame eq_refl).
  - rewrite (before_found e y n w l1 l2 He Hy),
      (after_found e y n w l1 l2 He Hy).
    unfold __len__. cbn [snd _stack]. rewrite !length_app. cbn. lia.
Qed.

(** X7 for a function put next to the second of three stages. *)
Lemma insert_then_remove_witness :
  (before (Function 1) (Function 9);; remove (Function 9))
    (Examples.world_with_f,
     {| _stack := [Function 0; Function 1; Function 2] |})
  = (Return (),
     ((warn_if_function_not_registered (Function 9) Examples.world_with_f).2,
      {| _stack := [Function 0; Function 1; Function 2] |})).
Proof.
  refine (proj1 (insert_then_remove_restores_the_stack
                   Examples.world_with_f [Function 0] (Function 1)
                   [Function 2] (Function 1) (Function 9) _ _ _)).
  - reflexivity.
  - repeat constructor.
  - repeat constructor.
Defined.

Lemma warn_keeps_partials f w :
  partials (warn_if_function_not_registered f w).2 = partials w.
Proof.
  rewrite warn_if_function_not_registered_eq.
  by destruct (fn_label w !! f).
Qed.

Lemma same_objects_warn f w :
  same_objects w (warn_if_function_not_registered f w).2.
Proof.
  destruct (warn_keeps_registry f w) as [? ?].
  split; [done|]. split; [done|]. apply warn_keeps_partials.
Qed.

Lemma same_objects_refl w : same_objects w w.
Proof. by repeat split. Qed.

Lemma same_objects_trans w1 w2 w3 :
  same_objects w1 w2 → same_objects w2 w3 → same_objects w1 w3.
Proof. intros (?&?&?) (?&?&?). repeat split; congruence. Qed.

Lemma call_method_same_objects m w self :
  same_objects w (Caller.call_method m (w, self)).2.1.
Proof.
  destruct m as [[|f args]|e n|e n|f|]; cbn [Caller.call_method].
  - apply same_objects_refl.
  - rewrite add_cons. apply same_objects_warn.
  - destruct self as [stack].
    destruct (first_equal_split e stack) as [Hout|(l1 & y & l2 & -> & Hy & He)].
    + rewrite (proj2 (positional_absent e n w {| _stack := stack |} Hout)).
      apply same_objects_warn.
    + rewrite (after_found e y) by done. apply same_objects_warn.
  - destruct self as [stack].
    destruct (first_equal_split e stack) as [Hout|(l1 & y & l2 & -> & Hy & He)].
    + rewrite (proj1 (positional_absent e n w {| _stack := stack |} Hout)).
      apply same_objects_warn.
    + rewrite (before_found e y) by done. apply same_objects_warn.
  - destruct self as [stack].
    destruct (first_equal_split f stack) as [Hout|(l1 & y & l2 & -> & Hy & He)].
    + rewrite (remove_absent f w {| _stack := stack |}) by done.
      apply same_objects_refl.
    + rewrite (remove_first f y) by done. apply same_objects_refl.
  - apply same_objects_refl.
Qed.

Lemma call_method_keeps_empty m w :
  _stack (Caller.call_method m (w, __init__)).2.2 = [].
Proof.
  destruct m as [[|f args]|e n|e n|f|]; cbn [Caller.call_method].
  - done.
  - by rewrite add_cons.
  - rewrite (proj2 (positional_absent e n w __init__ (Forall_nil_2 _))).
    done.
  - rewrite (proj1 (positional_absent e n w __init__ (Forall_nil_2 _))).
    done.
  - by rewrite (remove_absent f w __init__ (Forall_nil_2 _)).
  - done.
Qed.

Lemma call_all_same_objects ms : ∀ w self,
  same_objects w (Caller.call_all ms (w, self)).1.
Proof.
  induction ms as [|m ms IH]; intros w self; cbn [Caller.call_all].
  { apply same_objects_refl. }
  pose proof (call_method_same_objects m w self) as Hm.
  destruct (Caller.call_method m (w, self)) as [r [w1 self1]].
  eapply same_objects_trans; [exact Hm|apply IH].
Qed.

Lemma call_all_keeps_empty ms : ∀ w,
  _stack (Caller.call_all ms (w, __init__)).2 = [].
Proof.
  induction ms as [|m ms IH]; intros w; cbn [Caller.call_all]; [done|].
  pose proof (call_method_keeps_empty m w) as Hm.
  destruct (Caller.call_method m (w, __init__)) as [r [w1 [stack1]]].
  cbn in Hm. subst stack1. apply IH.
Qed.

(** X8. No sequence of [add], [after], [before], [remove] and [reset]
    calls, whichever of them raise, puts a function into a pipeline that
    was made by [Pipeline()]: its [_stack] stays empty, its [len] is 0
    and [run] gives the empty list for every token list. Nor do these
    calls, on any pipeline, change the registry, a function's [label] or
    a [partial] object; the log is all they write to. *)
Theorem method_calls_keep_a_new_pipeline_empty :
  ∀ (ms : list Caller.method) (w : World),
    (let s := Caller.call_all ms (w, __init__) in
     _stack s.2 = []
     ∧ __len__ s.2 = O
     ∧ ∀ (Token : Type) (call : fn → Token → nat → list Token → str)
         (tokens : list Token), run call s.2 tokens = [])
    ∧ ∀ self : Pipeline,
        let s := Caller.call_all ms (w, self) in
        registered_functions s.1 = registered_functions w
        ∧ fn_label s.1 = fn_label w
        ∧ partials s.1 = partials w.
Proof.
  intros ms w. split.
  - pose proof (call_all_keeps_empty ms w) as He. cbn zeta.
    split; [done|]. split; [unfold __len__; by rewrite He|].
    intros. unfold run. by rewrite He.
  - intros self. apply call_all_same_objects.
Qed.

(** ** [load] and [to_json] *)

(** X9. What [load] does is decided by its first label alone: with no
    label it returns an empty pipeline and leaves the world alone; with
    a first label that is not registered it raises the
    ["Cannot load unregistered function "] exception and leaves the
    world alone; with a first label that is registered it raises the
    [AttributeError] of [add], after the registration check on the
    resolved function. The labels after the first are never looked at. *)
Theorem load_is_decided_by_the_first_label :
  ∀ w : World,
    load [] w = (Return __init__, w)
    ∧ ∀ (label : str) (rest : list str),
        load (label :: rest) w
        = match registered_functions w !! label with
          | None => (Raise cannot_load, w)
          | Some f =>
            (Raise no_push, (warn_if_function_not_registered f w).2)
          end.
Proof.
  intros w. split; [done|]. intros label rest.
  destruct (registered_functions w !! label) as [f|] eqn:E.
  - by apply load_registered.
  - by apply load_unregistered.
Qed.

Lemma labels_of_labelled w self stack ls :
  Forall2 (λ f l, fn_label w !! f = Some l) stack ls →
  labels_of stack (w, self) = (Return ls, (w, self)).
Proof.
  induction 1 as [|f l stack ls Hf _ IH]; [done|].
  cbn [labels_of].
  rewrite (bind_Return _ _ _ l (w, self))
    by (rewrite on_fst_eq; unfold getattr_label; by rewrite Hf).
  by rewrite (bind_Return _ _ _ ls (w, self)).
Qed.

Lemma labels_of_unlabelled w self stack f :
  f ∈ stack → fn_label w !! f = None →
  labels_of stack (w, self) = (Raise no_label, (w, self)).
Proof.
  intros Hin Hf. induction stack as [|g stack IH].
  { by apply elem_of_nil in Hin. }
  cbn [labels_of].
  destruct (fn_label w !! g) as [l|] eqn:Hg.
  - rewrite (bind_Return _ _ _ l (w, self))
      by (rewrite on_fst_eq; unfold getattr_label; by rewrite Hg).
    apply bind_Raise, IH.
    apply elem_of_cons in Hin as [->|Hin]; [congruence|done].
  - apply bind_Raise. rewrite on_fst_eq. unfold getattr_label.
    by rewrite Hg.
Qed.

(** X10. [to_json] changes nothing. When every function in [_stack] has
    a [label] it returns their labels in stack order, one per stage,
    repeats included; when some function has none it raises
    [AttributeError] and returns no partial list. *)
Theorem to_json_lists_the_labels_in_stack_order :
  ∀ (w : World) (self : Pipeline),
    (∀ ls,
       Forall2 (λ f l, fn_label w !! f = Some l) (_stack self) ls →
       to_json (w, self) = (Return ls, (w, self)))
    ∧ (∀ f,
         f ∈ _stack self → fn_label w !! f = None →
         to_json (w, self) = (Raise no_label, (w, self))).
Proof.
  intros w self. split.
  - intros ls H. by apply labels_of_labelled.
  - intros f Hin Hf. by eapply labels_of_unlabelled.
Qed.

(** X10 on a pipeline with the registered function twice, and on one
    with a function that was never given a label. *)
Lemma to_json_witness :
  to_json (Examples.world_with_f, {| _stack := [Function 0; Function 0] |})
  = (Return [py "f"; py "f"],
     (Examples.world_with_f, {| _stack := [Function 0; Function 0] |}))
  ∧ to_json (Examples.world_with_f, {| _stack := [Function 0; Function 7] |})
    = (Raise no_label,
       (Examples.world_with_f, {| _stack := [Function 0; Function 7] |})).
Proof.
  split.
  - apply (proj1 (to_json_lists_the_labels_in_stack_order
                    Examples.world_with_f
                    {| _stack := [Function 0; Function 0] |})).
    repeat constructor.
  - apply (proj2 (to_json_lists_the_labels_in_stack_order
                    Examples.world_with_f
                    {| _stack := [Function 0; Function 7] |}) (Function 7)).
    + apply (bool_decide_unpack _). vm_compute. exact I.
    + vm_compute. reflexivity.
Defined.

(** ** What the loop over the languages collects *)

Section CollectedFacts.
Variable lib : Imports.

Lemma collect_language_turn language c w c1 w1 :
  keeps_stemmers lib →
  collect_language lib language c w = (Return c1, w1) →
  ∃ s g,
    all_stemmers c1 = all_stemmers c ++ [s]
    ∧ all_stopwords_filters c1 = all_stopwords_filters c ++ [g]
    ∧ stemmer_for lib w language s
    ∧ filter_for lib language g
    ∧ ∀ code, registered_functions w1 !! (py "stemmer-" ++ code)
              = registered_functions w !! (py "stemmer-" ++ code).
Proof.
  intros Hkeep. unfold collect_language, stemmer_for, filter_for.
  destruct (decide (language = py "en")) as [->|Hne].
  { intros [= <- <-]. exists (stemmer lib), (stop_word_filter lib).
    by repeat split. }
  destruct (get_stopwords_pure lib language) as [r Hr].
  intros H. apply bind_inv_Return in H as ([sw wc] & w2 & H1 & H).
  rewrite Hr in H1. injection H1 as -> <-.
  apply bind_inv_Return in H as (s & w3 & Hs & H).
  unfold registry_getitem in Hs. rewrite stemmer_label_eq in Hs.
  destruct (registered_functions w !! (py "stemmer-" ++ language))
    as [s'|] eqn:Hreg; [|done].
  injection Hs as -> <-.
  apply bind_inv_Return in H as (g & w4 & Hg & H).
  injection H as <- <-. exists s, g. repeat split; try done.
  intros code. specialize (Hkeep sw language w code).
  by rewrite Hg in Hkeep.
Qed.

Lemma stemmer_for_same_keys w w' language s :
  (∀ code, registered_functions w' !! (py "stemmer-" ++ code)
           = registered_functions w !! (py "stemmer-" ++ code)) →
  stemmer_for lib w' language s → stemmer_for lib w language s.
Proof.
  unfold stemmer_for. intros Hkeys.
  destruct (decide (language = py "en")); [done|]. by rewrite Hkeys.
Qed.

Lemma collect_turns languages : ∀ c w c1 w1,
  keeps_stemmers lib →
  collect lib languages c w = (Return c1, w1) →
  ∃ ss gs,
    all_stemmers c1 = all_stemmers c ++ ss
    ∧ all_stopwords_filters c1 = all_stopwords_filters c ++ gs
    ∧ Forall2 (stemmer_for lib w) languages ss
    ∧ Forall2 (filter_for lib) languages gs
    ∧ ∀ code, registered_functions w1 !! (py "stemmer-" ++ code)
              = registered_functions w !! (py "stemmer-" ++ code).
Proof.
  induction languages as [|l languages IH]; intros c w c1 w1 Hkeep H.
  { injection H as <- <-. exists [], [].
    rewrite !app_nil_r. by repeat split. }
  cbn [collect] in H.
  apply bind_inv_Return in H as (c2 & w2 & Hl & H).
  apply collect_language_turn in Hl as (s & g & Hs & Hg & Hsf & Hgf & Hk);
    [|done].
  apply IH in H as (ss & gs & Hss & Hgs & Hssf & Hgsf & Hk'); [|done].
  exists (s :: ss), (g :: gs).
  rewrite Hss, Hgs, Hs, Hg, <-!app_assoc.
  split; [done|]. split; [done|].
  split.
  { constructor; [done|].
    eapply Forall2_impl; [exact Hssf|].
    intros l' s'. by apply stemmer_for_same_keys. }
  split; [by constructor|].
  intros code. by rewrite Hk', Hk.
Qed.

End CollectedFacts.

(** X11. When the loop over the requested languages goes through (and
    making a stop-word filter does not touch the registry's stemmer
    entries), [all_stemmers] and [all_stopwords_filters] hold one entry
    per requested language, in the order of the request, a language
    requested twice being there twice: for ["en"] the default stemmer
    and the default stop-word filter, for any other code the function
    that the registry had under ["stemmer-<code>"] when the call
    began. *)
Theorem collect_takes_one_stemmer_and_filter_per_language :
  ∀ (lib : Imports) (languages : list str) (w : World)
    (c : Collected) (w1 : World),
    keeps_stemmers lib →
    collect lib languages nothing_collected w = (Return c, w1) →
    Forall2 (stemmer_for lib w) languages (all_stemmers c)
    ∧ Forall2 (filter_for lib) languages (all_stopwords_filters c)
    ∧ length (all_stemmers c) = length languages
    ∧ length (all_stopwords_filters c) = length languages.
Proof.
  intros lib languages w c w1 Hkeep H.
  apply collect_turns in H as (ss & gs & Hss & Hgs & Hssf & Hgsf & _);
    [|done].
  cbn in Hss, Hgs. subst ss gs.
  split; [done|]. split; [done|].
  split; symmetry; by eapply Forall2_length.
Qed.

(** X11 for the request [["fr"; "en"; "fr"]] with a French stemmer
    registered. *)
Lemma collect_witness :
  Forall2 (stemmer_for Examples.lib0 Examples.world_with_french)
    [py "fr"; py "en"; py "fr"] [Function 5; Function 1; Function 5]
  ∧ Forall2 (filter_for Examples.lib0)
      [py "fr"; py "en"; py "fr"] [Function 4; Function 2; Function 4]
  ∧ length [Function 5; Function 1; Function 5] = 3%nat
  ∧ length [Function 4; Function 2; Function 4] = 3%nat.
Proof.
  refine (collect_takes_one_stemmer_and_filter_per_language
            Examples.lib0 [py "fr"; py "en"; py "fr"]
            Examples.world_with_french
            {| all_stemmers := [Function 5; Function 1; Function 5];
               all_stopwords_filters := [Function 4; Function 2; Function 4];
               all_word_characters :=
                 ∅ ∪ word_characters_of (WordList [py "le"; py "la"])
                   ∪ {[ py "\w" ]}
                   ∪ word_characters_of (WordList [py "le"; py "la"]) |}
            Examples.world_with_french _ _).
  - intros stopwords language w code. reflexivity.
  - vm_compute. reflexivity.
Defined.

(** ** The trimmer's alphabet *)

Lemma elem_of_join_nil (ch : N) (x : str) (l : list str) :
  x ∈ l → ch ∈ x → ch ∈ join [] l.
Proof.
  intros Hx Hch. induction l as [|y l IH].
  { by apply elem_of_nil in Hx. }
  cbn [join]. destruct l as [|z l].
  - apply list_elem_of_singleton in Hx as ->. done.
  - rewrite app_nil_l. apply elem_of_app.
    apply elem_of_cons in Hx as [->|Hx]; [by left|right; by apply IH].
Qed.

Lemma elem_of_trimmer_alphabet (ch : N) (s : gset str) :
  [ch] ∈ s → ch ∈ trimmer_alphabet s.
Proof.
  intros H. unfold trimmer_alphabet.
  apply (elem_of_join_nil ch [ch]).
  - by rewrite elem_of_sorted, elem_of_elements.
  - by apply list_elem_of_singleton.
Qed.

Section AlphabetFacts.
Variable lib : Imports.

Lemma get_stopwords_inv language w stopwords word_characters w' :
  _get_stopwords_and_word_characters lib language w
    = (Return (stopwords, word_characters), w') →
  word_characters = word_characters_of stopwords
  ∧ language_word_characters lib language
    = (if decide (language = py "en") then {[ py "\w" ]}
       else word_characters).
Proof.
  intros H. split.
  - unfold _get_stopwords_and_word_characters in H.
    apply bind_inv_Return in H as (n & w1 & _ & H).
    apply bind_inv_Return in H as (ok & w2 & _ & H).
    apply bind_inv_Return in H as (v & w3 & _ & H).
    apply bind_inv_Return in H as (l & w4 & _ & H).
    by injection H as <- <- <-.
  - unfold language_word_characters.
    destruct (decide (language = py "en")); [done|].
    destruct (get_stopwords_pure lib language) as [r Hr].
    rewrite Hr in H |- *. by injection H as -> <-.
Qed.

Lemma collected_characters_include languages language c w c1 w1 :
  collect lib languages c w = (Return c1, w1) →
  language ∈ languages →
  language_word_characters lib language ⊆ all_word_characters c1.
Proof.
  intros H Hin. rewrite (collect_characters lib languages _ _ _ _ H).
  intros x Hx. apply elem_of_union. right.
  apply elem_of_union_list. eexists. split; [|exact Hx].
  by apply list_elem_of_fmap_2.
Qed.

End AlphabetFacts.

(** X12. When the loop over the requested languages goes through, the
    alphabet handed to [generate_trimmer] contains every character of
    every stop word of every requested language other than ["en"] (the
    stop words being those that [_get_stopwords_and_word_characters]
    gives for the language); for ["en"] it contains the two characters
    of the marker [\w]. *)
Theorem trimmer_alphabet_has_every_stop_word_character :
  ∀ (lib : Imports) (languages : list str) (w : World)
    (c : Collected) (w1 : World) (language : str),
    collect lib languages nothing_collected w = (Return c, w1) →
    language ∈ languages →
    (language = py "en" →
     92 ∈ trimmer_alphabet (all_word_characters c)
     ∧ 119 ∈ trimmer_alphabet (all_word_characters c))
    ∧ (language ≠ py "en" →
       ∀ w0 stopwords word_characters w0' word ch,
         _get_stopwords_and_word_characters lib language w0
           = (Return (stopwords, word_characters), w0') →
         has_word stopwords word →
         ch ∈ word →
         ch ∈ trimmer_alphabet (all_word_characters c)).
Proof.
  intros lib languages w c w1 language Hc Hin.
  pose proof (collected_characters_include lib languages language
                _ _ _ _ Hc Hin) as Hsub.
  split.
  - intros ->.
    assert (py "\w" ∈ all_word_characters c) as Hw.
    { apply Hsub. unfold language_word_characters.
      rewrite decide_True by done. by apply elem_of_singleton. }
    unfold trimmer_alphabet.
    split; apply (elem_of_join_nil _ (py "\w"));
      try (by rewrite elem_of_sorted, elem_of_elements);
      apply (bool_decide_unpack _); by vm_compute.
  - intros Hne w0 sw wc w0' word ch Hget Hword Hch.
    apply get_stopwords_inv in Hget as [-> Hl].
    rewrite decide_False in Hl by done.
    apply elem_of_trimmer_alphabet, Hsub. rewrite Hl.
    apply elem_of_word_characters_of. eauto.
Qed.

(** X12 for the request [["fr"; "en"]]: the [e] of ["le"] is in the
    alphabet. *)
Lemma trimmer_alphabet_witness :
  101 ∈ trimmer_alphabet
          (∅ ∪ word_characters_of (WordList [py "le"; py "la"])
             ∪ {[ py "\w" ]}).
Proof.
  refine (proj2 (trimmer_alphabet_has_every_stop_word_character
            Examples.lib0 [py "fr"; py "en"] Examples.world_with_french
            {| all_stemmers := [Function 5; Function 1];
               all_stopwords_filters := [Function 4; Function 2];
               all_word_characters :=
                 ∅ ∪ word_characters_of (WordList [py "le"; py "la"])
                   ∪ {[ py "\w" ]} |}
            Examples.world_with_french (py "fr") _ _) _
            Examples.empty_world (WordList [py "le"; py "la"])
            (word_characters_of (WordList [py "le"; py "la"]))
            Examples.empty_world (py "le") 101 _ _ _).
  - vm_compute. reflexivity.
  - apply (bool_decide_unpack _). vm_compute. exact I.
  - discriminate.
  - vm_compute. reflexivity.
  - unfold has_word. apply (bool_decide_unpack _). vm_compute. exact I.
  - apply (bool_decide_unpack _). vm_compute. exact I.
Defined.

Lemma str_leb_antisym s : ∀ t,
  str_leb s t = true → str_leb t s = true → s = t.
Proof.
  induction s as [|a s IH]; intros [|b t]; cbn; try done.
  destruct (N.ltb_spec a b), (N.ltb_spec b a), (N.eqb_spec a b),
    (N.eqb_spec b a); try done; try lia.
  intros H1 H2. subst. f_equal. by apply IH.
Qed.

#[local] Instance str_le_antisym : AntiSymm (=) str_le.
Proof. intros s t. apply str_leb_antisym. Qed.

(** X13. The alphabet does not depend on the order in which Python
    iterates over the set [all_word_characters]: sorting any enumeration
    of the set gives the same list, so the trimmer is built from the
    same string in every process. *)
Theorem trimmer_alphabet_is_independent_of_set_order :
  ∀ (s : gset str) (enumeration : list str),
    enumeration ≡ₚ elements s →
    sorted enumeration = sorted (elements s)
    ∧ join [] (sorted enumeration) = trimmer_alphabet s.
Proof.
  intros s l Hl.
  assert (sorted l = sorted (elements s)) as H.
  { apply (Sorted_unique str_le).
    - apply Sorted_merge_sort, _.
    - apply Sorted_merge_sort, _.
    - by rewrite !sorted_Permutation. }
  split; [done|]. unfold trimmer_alphabet. by rewrite H.
Qed.

(** X13 for the set of ["b"], [\w] and ["a"], enumerated backwards. *)
Lemma set_order_witness :
  sorted (reverse (elements ({[ py "b"; py "\w"; py "a" ]} : gset str)))
  = sorted (elements ({[ py "b"; py "\w"; py "a" ]} : gset str))
  ∧ join [] (sorted (reverse (elements
                                ({[ py "b"; py "\w"; py "a" ]} : gset str))))
    = trimmer_alphabet {[ py "b"; py "\w"; py "a" ]}.
Proof.
  apply (trimmer_alphabet_is_independent_of_set_order
           {[ py "b"; py "\w"; py "a" ]}).
  apply reverse_Permutation.
Defined.

(** ** Requests with and without [nltk] *)

Section EnglishFacts.
Variable lib : Imports.

Lemma collect_english languages : ∀ c w,
  Forall (λ l, l = py "en") languages →
  ∃ c1,
    collect lib languages c w = (Return c1, w)
    ∧ all_stemmers c1
      = all_stemmers c ++ replicate (length languages) (stemmer lib)
    ∧ all_stopwords_filters c1
      = all_stopwords_filters c
        ++ replicate (length languages) (stop_word_filter lib)
    ∧ all_word_characters c1
      = match languages with
        | [] => all_word_characters c
        | _ :: _ => all_word_characters c ∪ {[ py "\w" ]}
        end.
Proof.
  induction languages as [|l languages IH]; intros c w Hen.
  { exists c. cbn. by rewrite !app_nil_r. }
  apply Forall_cons in Hen as [-> Hen].
  cbn [collect]. unfold collect_language at 1.
  rewrite decide_True by done.
  destruct (IH {| all_stemmers := all_stemmers c ++ [stemmer lib];
                  all_stopwords_filters :=
                    all_stopwords_filters c ++ [stop_word_filter lib];
                  all_word_characters :=
                    all_word_characters c ∪ {[ py "\w" ]} |} w Hen)
    as (c1 & Hc & Hs & Hf & Hch).
  exists c1. split; [exact Hc|].
  cbn [all_stemmers all_stopwords_filters all_word_characters] in Hs, Hf, Hch.
  rewrite Hs, Hf, <-!app_assoc. split; [done|]. split; [done|].
  rewrite Hch. destruct languages; [done|].
  by rewrite <-(assoc_L (∪)), (union_idemp_L {[ py "\w" ]}).
Qed.

Lemma collect_language_without_nltk language c w :
  nltk lib = None → language ≠ py "en" →
  collect_language lib language c w
  = (Raise (NameError (py "name 'nltk' is not defined")), w).
Proof.
  intros Hn Hne. unfold collect_language. rewrite decide_False by done.
  apply bind_Raise. unfold _get_stopwords_and_word_characters.
  apply bind_Raise. unfold global_nltk. by rewrite Hn.
Qed.

End EnglishFacts.

(** X14. A request for ["en"] alone, however often repeated, never
    reads [nltk] or the registry and leaves the world alone: the loop
    returns with the default stemmer and the default stop-word filter
    once per repetition, and the alphabet of the trimmer is the marker
    [\w]. *)
Theorem english_only_request_needs_no_nltk :
  ∀ (lib : Imports) (k : nat) (w : World),
    ∃ c,
      collect lib (replicate (S k) (py "en")) nothing_collected w
      = (Return c, w)
      ∧ all_stemmers c = replicate (S k) (stemmer lib)
      ∧ all_stopwords_filters c = replicate (S k) (stop_word_filter lib)
      ∧ all_word_characters c = {[ py "\w" ]}
      ∧ trimmer_alphabet (all_word_characters c) = py "\w".
Proof.
  intros lib k w.
  destruct (collect_english lib (replicate (S k) (py "en"))
              nothing_collected w) as (c & Hc & Hs & Hf & Hch).
  { apply Forall_replicate. done. }
  exists c. rewrite length_replicate in Hs, Hf.
  split; [exact Hc|]. split; [exact Hs|]. split; [exact Hf|].
  cbn [replicate nothing_collected all_word_characters] in Hch.
  rewrite (left_id_L ∅ (∪)) in Hch. split; [exact Hch|].
  rewrite Hch. unfold trimmer_alphabet. by rewrite elements_singleton.
Qed.

(** X15. In a process where [import nltk] failed, importing the module
    registers nothing, and a request whose first language other than
    ["en"] comes after any number of ["en"] raises [NameError] for the
    name [nltk], with the world untouched and no [Builder] made,
    whatever the language is and whatever follows it. *)
Theorem without_nltk_other_languages_raise_NameError :
  ∀ (lib : Imports) (pre : list str) (language : str) (post : list str)
    (iteration : gset str → list str) (w : World),
    nltk lib = None →
    Forall (λ l, l = py "en") pre →
    language ≠ py "en" →
    get_nltk_builder lib (pre ++ language :: post) w
    = (Raise (NameError (py "name 'nltk' is not defined")), (w, None))
    ∧ import_module lib iteration w = (Return (), w).
Proof.
  intros lib pre language post iteration w Hn Hpre Hne. split.
  - destruct (collect_english lib pre nothing_collected w Hpre)
      as (c & Hc & _).
    unfold get_nltk_builder, get_nltk_builder_body.
    apply bind_Raise. rewrite on_fst_eq, collect_app.
    rewrite (bind_Return _ _ _ c w Hc). cbn [collect].
    rewrite (bind_Raise _ _ _ _ _
               (collect_language_without_nltk lib language c w Hn Hne)).
    reflexivity.
  - unfold import_module, LANGUAGE_SUPPORT. by rewrite Hn.
Qed.

(** X15 for the request [["en"; "fr"; "de"]]. *)
Lemma without_nltk_witness :
  get_nltk_builder Examples.lib_without_nltk [py "en"; py "fr"; py "de"]
    Examples.world_with_french
  = (Raise (NameError (py "name 'nltk' is not defined")),
     (Examples.world_with_french, None))
  ∧ import_module Examples.lib_without_nltk elements
      Examples.world_with_french
    = (Return (), Examples.world_with_french).
Proof.
  apply (without_nltk_other_languages_raise_NameError
           Examples.lib_without_nltk [py "en"] (py "fr") [py "de"]
           elements Examples.world_with_french).
  - reflexivity.
  - repeat constructor.
  - discriminate.
Defined.

(** ** [register_languages] *)

Section RegisterFacts.
Variable lib : Imports.
Variable n : nltk_module.
Hypothesis nltk_imported : nltk lib = Some n.

Lemma register_languages_in_bound order code : ∀ w w',
  register_languages_in lib order w = (Return (), w') →
  code ∈ order ∨ bound_to_a_partial (py "stemmer-" ++ code) w →
  bound_to_a_partial (py "stemmer-" ++ code) w'.
Proof.
  induction order as [|language rest IH]; intros w w' Hrun Hcode.
  { injection Hrun as <-. destruct Hcode as [Hin|]; [|done].
    by apply elem_of_nil in Hin. }
  apply (register_language_turn lib n nltk_imported) in Hrun
    as (s & v & Hv & Hs & Hrun).
  apply IH in Hrun; [done|].
  destruct (decide (language = code)) as [->|Hne].
  - right. exists (length (partials w)).
    cbn [registered_functions fn_label partials].
    rewrite !lookup_insert_eq, length_app. cbn. split; [done|].
    split; [done|lia].
  - destruct Hcode as [Hin|(a & Hreg & Hlab & Ha)].
    + apply elem_of_cons in Hin as [?|?]; [done|by left].
    + right. exists a. cbn [registered_functions fn_label partials].
      rewrite lookup_insert_ne
        by (intros H; apply app_inv_head in H; by apply Hne).
      rewrite lookup_insert_ne by (intros [= ?]; lia).
      rewrite length_app. cbn. split; [done|]. split; [done|lia].
Qed.

Lemma register_languages_in_frame order key : ∀ w w',
  register_languages_in lib order w = (Return (), w') →
  (∀ code, code ∈ order → key ≠ py "stemmer-" ++ code) →
  registered_functions w' !! key = registered_functions w !! key.
Proof.
  induction order as [|language rest IH]; intros w w' Hrun Hkey.
  { by injection Hrun as <-. }
  apply (register_language_turn lib n nltk_imported) in Hrun
    as (s & v & Hv & Hs & Hrun).
  apply IH in Hrun.
  - rewrite Hrun. cbn [registered_functions].
    apply lookup_insert_ne. intros H. eapply Hkey; [|by symmetry].
    by left.
  - intros code Hin. apply Hkey. by right.
Qed.

Lemma register_languages_in_partials order : ∀ w w',
  register_languages_in lib order w = (Return (), w') →
  length (partials w') = (length (partials w) + length order)%nat.
Proof.
  induction order as [|language rest IH]; intros w w' Hrun.
  { injection Hrun as <-. cbn. lia. }
  apply (register_language_turn lib n nltk_imported) in Hrun
    as (s & v & Hv & Hs & Hrun).
  apply IH in Hrun. rewrite Hrun. cbn [partials].
  rewrite length_app. cbn. lia.
Qed.

End RegisterFacts.

Lemma registered_codes_count : length (elements registered_codes) = 15%nat.
Proof. by vm_compute. Qed.

(** X16. When [register_languages] returns (with [nltk] imported, and
    [get_language_stemmer] a call that gives a stemmer and leaves the
    registry alone), every code of [SUPPORTED_LANGUAGES] other than
    ["en"] has ["stemmer-<code>"] bound to a [partial] object that
    carries that label; one [partial] was made per code, fifteen in
    all; and any registry key that is not such a label, ["stemmer-en"]
    among them, holds what it held before. *)
Theorem register_languages_binds_a_stemmer_per_code :
  ∀ (lib : Imports) (n : nltk_module) (iteration : gset str → list str)
    (w w' : World),
    nltk lib = Some n →
    (∀ s, iteration s ≡ₚ elements s) →
    register_languages lib iteration w = (Return (), w') →
    (∀ code verbose_language,
       SUPPORTED_LANGUAGES !! code = Some verbose_language →
       code ≠ py "en" →
       bound_to_a_partial (py "stemmer-" ++ code) w')
    ∧ (∀ key,
         (∀ code, code ∈ registered_codes → key ≠ py "stemmer-" ++ code) →
         registered_functions w' !! key = registered_functions w !! key)
    ∧ registered_functions w' !! py "stemmer-en"
      = registered_functions w !! py "stemmer-en"
    ∧ length (partials w') = (length (partials w) + 15)%nat.
Proof.
  intros lib n iteration w w' Hn Hiter Hrun. unfold register_languages in Hrun.
  assert (Hframe : ∀ key,
    (∀ code, code ∈ registered_codes → key ≠ py "stemmer-" ++ code) →
    registered_functions w' !! key = registered_functions w !! key).
  { intros key Hkey.
    apply (register_languages_in_frame lib n Hn _ key _ _ Hrun).
    intros code Hin. apply Hkey.
    rewrite Hiter in Hin. by apply elem_of_elements in Hin. }
  split; [|split; [exact Hframe|split]].
  - intros code v Hv Hne.
    apply (register_languages_in_bound lib n Hn _ code _ _ Hrun).
    left. rewrite Hiter. apply elem_of_elements.
    unfold registered_codes. apply elem_of_difference. split.
    + apply elem_of_dom. eauto.
    + by rewrite elem_of_singleton.
  - apply Hframe. intros code Hin H.
    change (py "stemmer-en") with (py "stemmer-" ++ py "en") in H.
    apply app_inv_head in H. subst code.
    unfold registered_codes in Hin. apply elem_of_difference in Hin as [_ Hin].
    by apply Hin, elem_of_singleton.
  - rewrite (register_languages_in_partials lib n Hn _ _ _ Hrun).
    by rewrite Hiter, registered_codes_count.
Qed.

(** X16 for an interpreter that iterates a set in the order of
    [elements], in a process that has registered a French stemmer
    before. *)
Lemma register_languages_witness :
  let w' := (register_languages Examples.lib0 elements
               Examples.world_with_french).2 in
  bound_to_a_partial (py "stemmer-" ++ py "fr") w'
  ∧ length (partials w') = 15%nat.
Proof.
  pose proof (register_languages_binds_a_stemmer_per_code
    Examples.lib0 Examples.nltk0 elements Examples.world_with_french
    (register_languages Examples.lib0 elements Examples.world_with_french).2
    eq_refl (λ s, reflexivity (elements s))) as H.
  destruct H as (Hbound & _ & _ & Hlen); [by vm_compute|].
  split; [|exact Hlen].
  apply (Hbound (py "fr") (py "french")); [by vm_compute|discriminate].
Defined.

(** ** Labels and the registry *)

Lemma labels_registered_register f label w :
  labels_registered w → labels_registered (register_function f label w).2.
Proof.
  intros Hw g l. rewrite register_function_eq.
  cbn [snd fn_label registered_functions].
  destruct (decide (label = l)) as [->|Hl].
  { intros _. rewrite lookup_insert_eq. eauto. }
  rewrite (lookup_insert_ne _ label l) by done.
  destruct (decide (f = g)) as [->|Hg].
  - rewrite lookup_insert_eq. by intros [= ->].
  - rewrite lookup_insert_ne by done. apply Hw.
Qed.

Lemma labels_registered_same_objects w w' :
  same_objects w w' → labels_registered w → labels_registered w'.
Proof. intros (Hr & Hl & _) Hw f l. rewrite Hr, Hl. apply Hw. Qed.

(** X3. That every label carried by a function is a key of the registry
    holds in a process that has registered nothing and is kept by
    [register_function] and by every sequence of [add], [after],
    [before], [remove] and [reset] calls. Where it holds, the
    registration check answers [True] silently for a function with a
    label and logs its warning for one without: it never answers
    [False]. *)
Theorem labels_stay_registered :
  ∀ w : World,
    labels_registered w →
    (∀ f label, labels_registered (register_function f label w).2)
    ∧ (∀ ms self, labels_registered (call_all ms (w, self)).1)
    ∧ (∀ f,
         warn_if_function_not_registered f w = (Return (Some true), w)
         ∨ fn_label w !! f = None
           ∧ warn_if_function_not_registered f w
             = (Return None, (log_warning not_registered_warning w).2)).
Proof.
  intros w Hw. split; [|split].
  - intros f label. by apply labels_registered_register.
  - intros ms self.
    eapply labels_registered_same_objects; [|exact Hw].
    apply call_all_same_objects.
  - intros f. rewrite warn_if_function_not_registered_eq.
    destruct (fn_label w !! f) as [l|] eqn:Hf; [left|by right].
    by rewrite bool_decide_true by by eapply Hw.
Qed.

(** X3 from the process that has registered nothing. *)
Lemma labels_stay_registered_witness :
  labels_registered Examples.world_with_f
  ∧ warn_if_function_not_registered (Function 7) Examples.empty_world
    = (Return None,
       (log_warning not_registered_warning Examples.empty_world).2).
Proof.
  assert (labels_registered Examples.empty_world) as H0.
  { intros f l H. cbn [Examples.empty_world fn_label] in H.
    rewrite lookup_empty in H. discriminate H. }
  pose proof (labels_stay_registered Examples.empty_world H0) as (Hr & _ & Hw).
  split; [apply Hr|].
  destruct (Hw (Function 7)) as [H|[_ H]]; [discriminate H|exact H].
Defined.
